(** * go-epub: the in-memory EPUB builder of [epub.go]

    A shallow embedding of package [epub] (file [epub.go]): the [Epub]
    struct, its constructor, the two add operations and the metadata
    setters and getters, together with the Go standard-library functions
    they call ([fmt.Sprintf] with the verb [%04d], [filepath.Ext],
    [filepath.Join]).

    Go strings are byte sequences and are modelled by [string]; Go maps by
    stdpp's [gmap], whose equality is extensional, exactly the information
    a Go map holds (no insertion order).  Methods with a pointer receiver
    become functions that take the [Epub] and return the updated one next
    to the Go return values. *)

From Stdlib Require Import Ascii Decimal DecimalString DecimalNat.
From stdpp Require Import base strings gmap list fin_maps.

(** ** Strings *)

Module Str.

(** The byte [c] occurs in [s]. *)
Fixpoint contains (c : ascii) (s : string) : bool :=
  match s with
  | EmptyString => false
  | String a r => if Ascii.eqb a c then true else contains c r
  end.

(** [strings.Join]. *)
Fixpoint join (sep : string) (l : list string) : string :=
  match l with
  | [] => ""
  | [x] => x
  | x :: r => x +:+ sep +:+ join sep r
  end.

(** [k] copies of the byte [c], followed by [s]. *)
Fixpoint pad (c : ascii) (k : nat) (s : string) : string :=
  match k with
  | O => s
  | S k' => String c (pad c k' s)
  end.

(** Every byte of [s] is a decimal digit. *)
Definition is_digit (a : ascii) : bool :=
  (Ascii.leb "0" a && Ascii.leb a "9")%char.

Fixpoint all_digits (s : string) : bool :=
  match s with
  | EmptyString => true
  | String a r => is_digit a && all_digits r
  end.

End Str.

(** ** [fmt.Sprintf]: the verb [%04d] on a non-negative [int]

    The decimal digits of [n], padded on the left with zeros up to a
    minimum width of four.  A number with more than four digits is
    printed in full. *)
Definition sprintf_04d (n : nat) : string :=
  let digits := NilEmpty.string_of_uint (Nat.to_uint n) in
  Str.pad "0" (4 - String.length digits) digits.

(** ** Package [path/filepath] (Unix: the separator is ['/']) *)

Module filepath.

Definition Separator : ascii := "/"%char.

Definition IsPathSeparator (c : ascii) : bool := Ascii.eqb c Separator.

(** The scan of [Ext], left to right: [cand] is the suffix that starts
    at the last dot seen since the last separator, or empty. *)
Fixpoint ext_from (cand : string) (path : string) : string :=
  match path with
  | EmptyString => cand
  | String c r =>
      if IsPathSeparator c then ext_from "" r
      else if Ascii.eqb c "." then ext_from path r
      else ext_from cand r
  end.

(** [Ext] returns the file name extension used by [path]: the suffix
    beginning at the final dot in the final element of [path]; it is
    empty if there is no dot. *)
Definition Ext (path : string) : string := ext_from "" path.

(** The elements of [path] between separators. *)
Fixpoint elements (path : string) : list string :=
  match path with
  | EmptyString => [""]
  | String c r =>
      if IsPathSeparator c then "" :: elements r
      else match elements r with
           | [] => [String c ""]
           | x :: xs => String c x :: xs
           end
  end.

(** One element of [Clean]'s loop.  [out] holds the elements written so
    far, last one first.  A [..] element removes the element before it,
    unless there is none to remove: then it is dropped on a rooted path
    and kept otherwise. *)
Definition clean_step (rooted : bool) (out : list string) (x : string)
  : list string :=
  if decide (x = "") then out
  else if decide (x = ".") then out
  else if decide (x = "..") then
    match out with
    | [] => if rooted then [] else [".."]
    | top :: below => if decide (top = "..") then x :: out else below
    end
  else x :: out.

Definition rooted (path : string) : bool :=
  match path with
  | EmptyString => false
  | String c _ => IsPathSeparator c
  end.

(** [Clean] returns the shortest path name equivalent to [path] by
    purely lexical processing: multiple separators become one, [.]
    elements are eliminated, inner [..] elements are eliminated along
    with the element before them, [..] elements that begin a rooted path
    are eliminated; the empty result is [.]. *)
Definition Clean (path : string) : string :=
  let out := fold_left (clean_step (rooted path)) (elements path) [] in
  let body := Str.join "/" (rev out) in
  if rooted path then "/" +:+ body
  else if decide (body = "") then "." else body.

(** [Join] joins the elements with the separator, ignoring leading empty
    elements, and cleans the result; with no non-empty element it
    returns the empty string. *)
Fixpoint Join (elem : list string) : string :=
  match elem with
  | [] => ""
  | e :: r => if decide (e = "") then Join r else Clean (Str.join "/" elem)
  end.

End filepath.

(** ** The data model of [epub.go] *)

(** [ErrFilenameAlreadyUsed] is the only error value of the package. *)
Inductive error : Type :=
| ErrFilenameAlreadyUsed.

Definition defaultEpubLang : string := "en".
Definition imagePrefix : string := "image".
Definition sectionPrefix : string := "section".
Definition sectionSuffix : string := ".xhtml".
Definition urnUUIDPrefix : string := "urn:uuid:".

(** [fmt.Sprintf(imageFileFormat, n, ext)], the format being
    ["image%04d%s"]. *)
Definition imageFileFormat (n : nat) (ext : string) : string :=
  imagePrefix +:+ sprintf_04d n +:+ ext.

(** [fmt.Sprintf(sectionFileFormat, n)], the format being
    ["section%04d.xhtml"]. *)
Definition sectionFileFormat (n : nat) : string :=
  sectionPrefix +:+ sprintf_04d n +:+ sectionSuffix.

(** Modelled from the spec: the constant [imageFolderName] is declared
    outside [epub.go]; the fixed folder of the image kind is [img]
    (layout [OEBPS/img/<image files>], reference [../img/go-gopher.png]). *)
Definition imageFolderName : string := "img".

(** Modelled from the spec: the type [xhtml] and its functions [newXhtml]
    and [setTitle] are declared outside [epub.go]; a section is a minimal
    document shell that carries a title and the body content. *)
Record xhtml : Type := mkXhtml {
  xhtml_title : string;
  xhtml_body : string
}.

Definition newXhtml (content : string) : xhtml :=
  {| xhtml_title := ""; xhtml_body := content |}.

Definition xhtml_setTitle (t : string) (x : xhtml) : xhtml :=
  {| xhtml_title := t; xhtml_body := xhtml_body x |}.

(** Modelled from the spec: the type [pkg] (the package document) with
    [newPackage] and its setters is declared outside [epub.go]; its
    metadata holds the unique identifier, the title, the author and the
    language, and each setter stores its argument there. *)
Record pkg : Type := mkPkg {
  pkg_author : string;
  pkg_lang : string;
  pkg_title : string;
  pkg_uuid : string
}.

Definition newPackage : pkg :=
  {| pkg_author := ""; pkg_lang := ""; pkg_title := ""; pkg_uuid := "" |}.

Definition pkg_setAuthor (a : string) (p : pkg) : pkg :=
  {| pkg_author := a; pkg_lang := pkg_lang p;
     pkg_title := pkg_title p; pkg_uuid := pkg_uuid p |}.

Definition pkg_setLang (l : string) (p : pkg) : pkg :=
  {| pkg_author := pkg_author p; pkg_lang := l;
     pkg_title := pkg_title p; pkg_uuid := pkg_uuid p |}.

Definition pkg_setTitle (t : string) (p : pkg) : pkg :=
  {| pkg_author := pkg_author p; pkg_lang := pkg_lang p;
     pkg_title := t; pkg_uuid := pkg_uuid p |}.

Definition pkg_setUUID (u : string) (p : pkg) : pkg :=
  {| pkg_author := pkg_author p; pkg_lang := pkg_lang p;
     pkg_title := pkg_title p; pkg_uuid := u |}.

(** Modelled from the spec: the type [toc] (the table of contents) with
    [newToc] and its setters is declared outside [epub.go]; its metadata
    holds the title and the unique identifier. *)
Record toc : Type := mkToc {
  toc_title : string;
  toc_uuid : string
}.

Definition newToc : toc := {| toc_title := ""; toc_uuid := "" |}.

Definition toc_setTitle (t : string) (c : toc) : toc :=
  {| toc_title := t; toc_uuid := toc_uuid c |}.

Definition toc_setUUID (u : string) (c : toc) : toc :=
  {| toc_title := toc_title c; toc_uuid := u |}.

(** [type Epub struct].  The fields [pkg] and [toc] are pointers owned by
    the [Epub] alone; they are the fields [e_pkg] and [e_toc] here. *)
Record Epub : Type := mkEpub {
  author : string;
  images : gmap string string;
  lang : string;
  e_pkg : pkg;
  sections : gmap string xhtml;
  title : string;
  e_toc : toc;
  uuid : string
}.

(** ** Getters and setters *)

Definition Author (e : Epub) : string := author e.
Definition Lang (e : Epub) : string := lang e.
Definition Title (e : Epub) : string := title e.
Definition UUID (e : Epub) : string := uuid e.

Definition SetAuthor (a : string) (e : Epub) : Epub :=
  {| author := a; images := images e; lang := lang e;
     e_pkg := pkg_setAuthor a (e_pkg e);
     sections := sections e; title := title e; e_toc := e_toc e;
     uuid := uuid e |}.

Definition SetLang (l : string) (e : Epub) : Epub :=
  {| author := author e; images := images e; lang := l;
     e_pkg := pkg_setLang l (e_pkg e);
     sections := sections e; title := title e; e_toc := e_toc e;
     uuid := uuid e |}.

Definition SetTitle (t : string) (e : Epub) : Epub :=
  {| author := author e; images := images e; lang := lang e;
     e_pkg := pkg_setTitle t (e_pkg e);
     sections := sections e; title := t;
     e_toc := toc_setTitle t (e_toc e);
     uuid := uuid e |}.

Definition SetUUID (u : string) (e : Epub) : Epub :=
  {| author := author e; images := images e; lang := lang e;
     e_pkg := pkg_setUUID (urnUUIDPrefix +:+ u) (e_pkg e);
     sections := sections e; title := title e;
     e_toc := toc_setUUID (urnUUIDPrefix +:+ u) (e_toc e);
     uuid := u |}.

(** ** The constructor

    [uuid.NewV4().String()] reads the system's random source; its result
    is the argument [newV4]. *)
Definition NewEpub (newV4 : string) (t : string) : Epub :=
  let e := {| author := ""; images := ∅; lang := "";
              e_pkg := newPackage; sections := ∅; title := "";
              e_toc := newToc; uuid := "" |} in
  let e := SetLang defaultEpubLang e in
  let e := SetTitle t e in
  SetUUID newV4 e.

(** ** The add operations

    Each returns the pair of Go results next to the [Epub] after the
    call. *)

Definition imageFilenameFor (imageSource imageFilename : string) (e : Epub)
  : string :=
  if decide (imageFilename = "")
  then imageFileFormat (size (images e) + 1) (filepath.Ext imageSource)
  else imageFilename.

Definition AddImage (imageSource imageFilename : string) (e : Epub)
  : (string * option error) * Epub :=
  let imageFilename := imageFilenameFor imageSource imageFilename e in
  match images e !! imageFilename with
  | Some _ => (("", Some ErrFilenameAlreadyUsed), e)
  | None =>
      let e' := {| author := author e;
                   images := <[imageFilename := imageSource]> (images e);
                   lang := lang e; e_pkg := e_pkg e;
                   sections := sections e; title := title e;
                   e_toc := e_toc e; uuid := uuid e |} in
      ((filepath.Join [".."; imageFolderName; imageFilename], None), e')
  end.

Definition sectionFilenameFor (sectionFilename : string) (e : Epub) : string :=
  if decide (sectionFilename = "")
  then sectionFileFormat (size (sections e) + 1)
  else sectionFilename.

Definition AddSection (sectionTitle sectionContent sectionFilename : string)
  (e : Epub) : (string * option error) * Epub :=
  let sectionFilename := sectionFilenameFor sectionFilename e in
  match sections e !! sectionFilename with
  | Some _ => (("", Some ErrFilenameAlreadyUsed), e)
  | None =>
      let x := newXhtml sectionContent in
      let x := xhtml_setTitle sectionTitle x in
      let e' := {| author := author e; images := images e;
                   lang := lang e; e_pkg := e_pkg e;
                   sections := <[sectionFilename := x]> (sections e);
                   title := title e; e_toc := e_toc e; uuid := uuid e |} in
      ((sectionFilename, None), e')
  end.

(** ** Sequences of calls on one [Epub] *)

Inductive call : Type :=
| CallAddImage (imageSource imageFilename : string)
| CallAddSection (sectionTitle sectionContent sectionFilename : string)
| CallSetAuthor (a : string)
| CallSetLang (l : string)
| CallSetTitle (t : string)
| CallSetUUID (u : string).

(** What a call returns: the setters return nothing. *)
Definition returned : Type := option (string * option error).

Definition step (c : call) (e : Epub) : returned * Epub :=
  match c with
  | CallAddImage s f => let '(r, e') := AddImage s f e in (Some r, e')
  | CallAddSection t b f => let '(r, e') := AddSection t b f e in (Some r, e')
  | CallSetAuthor a => (None, SetAuthor a e)
  | CallSetLang l => (None, SetLang l e)
  | CallSetTitle t => (None, SetTitle t e)
  | CallSetUUID u => (None, SetUUID u e)
  end.

(** The calls of [cs] in order, with what each returned. *)
Fixpoint run (cs : list call) (e : Epub) : list (call * returned) * Epub :=
  match cs with
  | [] => ([], e)
  | c :: cs' =>
      let '(r, e1) := step c e in
      let '(rs, e2) := run cs' e1 in
      ((c, r) :: rs, e2)
  end.

Definition exec (cs : list call) (e : Epub) : Epub := snd (run cs e).

(** ** What the claims speak about *)

(** An extension as [filepath.Ext] returns it: empty, or a dot followed by
    bytes that are not separators. *)
Definition is_ext (x : string) : bool :=
  match x with
  | EmptyString => true
  | String c r => Ascii.eqb c "." && negb (Str.contains "/" r)
  end.

(** A path element that [filepath.Clean] keeps as it is. *)
Definition plain_element (x : string) : bool :=
  negb (String.eqb x "") && negb (String.eqb x ".") && negb (String.eqb x "..").

(** A file name that is already clean and does not leave its folder:
    plain elements separated by single slashes. *)
Definition clean_relative (name : string) : bool :=
  forallb plain_element (filepath.elements name).

(** The decimal number written by the digit string [s]. *)
Definition parse_nat (s : string) : option nat :=
  Nat.of_uint <$> NilEmpty.uint_of_string s.

(** The four metadata fields with a setter and a getter. *)
Inductive field : Type := FAuthor | FLang | FTitle | FUUID.

Definition setter (fld : field) (v : string) (e : Epub) : Epub :=
  match fld with
  | FAuthor => SetAuthor v e
  | FLang => SetLang v e
  | FTitle => SetTitle v e
  | FUUID => SetUUID v e
  end.

Definition getter (fld : field) (e : Epub) : string :=
  match fld with
  | FAuthor => Author e
  | FLang => Lang e
  | FTitle => Title e
  | FUUID => UUID e
  end.

(** The call [c] is the setter of the field [fld]. *)
Definition sets (fld : field) (c : call) : bool :=
  match fld, c with
  | FAuthor, CallSetAuthor _ => true
  | FLang, CallSetLang _ => true
  | FTitle, CallSetTitle _ => true
  | FUUID, CallSetUUID _ => true
  | _, _ => false
  end.

(** No call of [cs] satisfies [p]. *)
Definition without (p : call → bool) (cs : list call) : bool :=
  forallb (λ c, negb (p c)) cs.

(** The title and the identifier of the package document and of the table
    of contents are those of the [Epub], the identifier as a URN. *)
Definition mirrored (e : Epub) : Prop :=
  pkg_title (e_pkg e) = title e ∧ toc_title (e_toc e) = title e
  ∧ pkg_uuid (e_pkg e) = urnUUIDPrefix +:+ uuid e
  ∧ toc_uuid (e_toc e) = urnUUIDPrefix +:+ uuid e.

(** Every [AddImage] call of [cs] leaves the file name empty. *)
Definition generated_only (cs : list call) : bool :=
  forallb (λ c, match c with
                | CallAddImage _ f => String.eqb f ""
                | _ => true
                end) cs.

(** The sources of the [AddImage] calls of [cs], in order. *)
Fixpoint image_sources (cs : list call) : list string :=
  match cs with
  | [] => []
  | CallAddImage s _ :: r => s :: image_sources r
  | _ :: r => image_sources r
  end.

(** What the [AddImage] calls of a run returned, in order. *)
Fixpoint image_returns (rs : list (call * returned))
  : list (string * option error) :=
  match rs with
  | [] => []
  | (CallAddImage _ _, Some r) :: t => r :: image_returns t
  | _ :: t => image_returns t
  end.

Section Naming.

(** The name generated for the number [n] and the source [s]. *)
Variable fmt : nat → string → string.

(** The names generated for the sources [srcs] when [n] entries are
    there already. *)
Fixpoint generated_from (n : nat) (srcs : list string) : list string :=
  match srcs with
  | [] => []
  | s :: r => fmt (n + 1) s :: generated_from (n + 1) r
  end.

(** The map holds [n] generated names, numbered up to [n]. *)
Definition numbered (n : nat) (m : gmap string string) : Prop :=
  size m = n
  ∧ ∀ k, is_Some (m !! k) → ∃ j s, 1 <= j <= n ∧ k = fmt j s.

End Naming.

(** The name [AddImage] generates as image number [n] for the source
    [s]. *)
Definition imageName (n : nat) (s : string) : string :=
  imageFileFormat n (filepath.Ext s).

(** The pattern of the claim: the prefix, exactly four digits, the
    extension of the source. *)
Definition four_digit_name (prefix name src : string) : Prop :=
  ∃ d, String.length d = 4 ∧ Str.all_digits d = true
       ∧ name = prefix +:+ d +:+ filepath.Ext src.

(** ** Stylesheets

    [AddCSS] and the map of stylesheets are declared outside [epub.go]. *)

(** Modelled from the spec: the fixed folder of the stylesheet kind
    (layout [OEBPS/css/<stylesheet files>], reference [../css/epub.css]). *)
Definition cssFolderName : string := "css".

(** Modelled from the spec: the generated stylesheet name, the prefix
    [css], the sequence number with four digits and the extension [.css]
    (example [css0002.css]). *)
Definition cssFileFormat (n : nat) : string :=
  "css" +:+ sprintf_04d n +:+ ".css".

Definition cssName (n : nat) (content : string) : string := cssFileFormat n.

(** Modelled from the spec: add-stylesheet on the map of stylesheets.  An
    empty file name is generated from the current number of stylesheets
    plus one; a name already there is refused and the map left as it is;
    otherwise the stylesheet is stored and its reference
    [../css/<filename>] returned. *)
Definition AddCSS (cssContent cssFilename : string) (css : gmap string string)
  : (string * option error) * gmap string string :=
  let cssFilename :=
    if decide (cssFilename = "") then cssFileFormat (size css + 1)
    else cssFilename in
  match css !! cssFilename with
  | Some _ => (("", Some ErrFilenameAlreadyUsed), css)
  | None =>
      ((filepath.Join [".."; cssFolderName; cssFilename], None),
       <[cssFilename := cssContent]> css)
  end.

(** A sequence of add-stylesheet calls, each a content and a file name,
    with what each returned. *)
Fixpoint addAllCSS (calls : list (string * string)) (css : gmap string string)
  : list (string * option error) * gmap string string :=
  match calls with
  | [] => ([], css)
  | (content, filename) :: r =>
      let '(ret, css1) := AddCSS content filename css in
      let '(rets, css2) := addAllCSS r css1 in
      (ret :: rets, css2)
  end.

(** ** The archive written by [Write]

    [Write] and the files it writes are declared outside [epub.go]. *)

(** Modelled from the spec: an entry of the produced archive, with its
    name, whether it is stored without compression, and its content. *)
Record entry : Type := mkEntry {
  entry_name : string;
  entry_stored : bool;
  entry_content : string
}.

(** Modelled from the spec: the errors of the write operation. *)
Inductive write_error : Type :=
| UnsupportedMediaType
| ResourceFetchFailure.

Section Write.

(** The fixed container media-type string and the static container
    descriptor. *)
Variable mediaTypeString : string.
Variable containerDescriptor : string.

(** The external collaborator that retrieves the bytes of a source. *)
Variable fetch : string → option string.

(** The fixed table from file extensions to media types. *)
Variable mediaTypeOf : string → option string.

(** The generated documents. *)
Variable packageDocument : Epub → string.
Variable tocNcx : Epub → string.
Variable navXhtml : Epub → string.
Variable sectionDocument : xhtml → string.

(** Modelled from the spec: the first entry of the archive, named
    [mimetype], stored, holding the media-type string. *)
Definition mimetypeEntry : entry :=
  {| entry_name := "mimetype"; entry_stored := true;
     entry_content := mediaTypeString |}.

(** Modelled from the spec: the bytes of every image, or nothing when one
    fetch fails. *)
Fixpoint fetchImages (l : list (string * string)) : option (list entry) :=
  match l with
  | [] => Some []
  | (name, source) :: r =>
      match fetch source, fetchImages r with
      | Some bytes, Some es =>
          Some ({| entry_name := "OEBPS/" +:+ imageFolderName +:+ "/" +:+ name;
                   entry_stored := false; entry_content := bytes |} :: es)
      | _, _ => None
      end
  end.

Definition sectionEntry (s : string * xhtml) : entry :=
  {| entry_name := "OEBPS/" +:+ s.1; entry_stored := false;
     entry_content := sectionDocument s.2 |}.

(** Modelled from the spec: the write operation.  The package document is
    built first (an image whose extension has no media type fails the
    build), then every image is fetched (a failure aborts the write),
    then the fixed tree is assembled: the [mimetype] entry, the container
    descriptor, the package document, the two tables of contents and the
    content files. *)
Definition Write (e : Epub) : write_error + list entry :=
  if forallb (λ i, bool_decide (is_Some (mediaTypeOf (filepath.Ext i.1))))
       (map_to_list (images e))
  then
    match fetchImages (map_to_list (images e)) with
    | None => inl ResourceFetchFailure
    | Some imgs =>
        inr (mimetypeEntry
             :: {| entry_name := "META-INF/container.xml";
                   entry_stored := false;
                   entry_content := containerDescriptor |}
             :: {| entry_name := "OEBPS/package.opf"; entry_stored := false;
                   entry_content := packageDocument e |}
             :: {| entry_name := "OEBPS/toc.ncx"; entry_stored := false;
                   entry_content := tocNcx e |}
             :: {| entry_name := "OEBPS/nav.xhtml"; entry_stored := false;
                   entry_content := navXhtml e |}
             :: imgs ++ (sectionEntry <$> map_to_list (sections e)))
    end
  else inl UnsupportedMediaType.

End Write.

(** ** Notions for runs of calls *)

Definition is_image_call (c : call) : bool :=
  match c with CallAddImage _ _ => true | _ => false end.

Definition is_section_call (c : call) : bool :=
  match c with CallAddSection _ _ _ => true | _ => false end.

(** What the [AddSection] calls of a run returned, in order. *)
Fixpoint section_returns (rs : list (call * returned))
  : list (string * option error) :=
  match rs with
  | [] => []
  | (CallAddSection _ _ _, Some r) :: t => r :: section_returns t
  | _ :: t => section_returns t
  end.

(** Every [AddSection] call of [cs] leaves the file name empty. *)
Definition generated_sections_only (cs : list call) : bool :=
  forallb (λ c, match c with
                | CallAddSection _ _ f => String.eqb f ""
                | _ => true
                end) cs.

(** How many results carry no error. *)
Fixpoint successes (rets : list (string * option error)) : nat :=
  match rets with
  | [] => 0
  | (_, None) :: t => S (successes t)
  | (_, Some _) :: t => successes t
  end.

(** The name [AddSection] generates as section number [n]. *)
Definition sectionName (n : nat) (s : string) : string := sectionFileFormat n.

(** Every key that is a generated name carries a number up to the size
    of the map. *)
Definition keys_numbered {V : Type} (fmt : nat → string → string)
  (m : gmap string V) : Prop :=
  ∀ k, is_Some (m !! k) → ∀ j s, k = fmt j s → j <= size m.

(** The file names given to [AddImage] in [cs] do not begin with
    [image]; those given to [AddSection] do not begin with [section]. *)
Definition own_image_names (cs : list call) : bool :=
  forallb (λ c, match c with
                | CallAddImage _ f => negb (String.prefix imagePrefix f)
                | _ => true
                end) cs.

Definition own_section_names (cs : list call) : bool :=
  forallb (λ c, match c with
                | CallAddSection _ _ f => negb (String.prefix sectionPrefix f)
                | _ => true
                end) cs.

(** The call [AddImage] for a pair of a source and a file name. *)
Definition image_call (p : string * string) : call := CallAddImage p.1 p.2.

(** A run with images of every sort of name, used as a concrete input. *)
Definition mixedCalls : list call :=
  [CallAddImage "a.png" ""; CallAddSection "One" "<p>1</p>" "";
   CallAddImage "b.jpg" "cover.jpg"; CallSetAuthor "A";
   CallAddImage "c.gif" ""; CallAddSection "Two" "<p>2</p>" "two.xhtml";
   CallAddImage "d.png" "cover.jpg"; CallAddSection "Three" "<p>3</p>" "";
   CallAddImage "e.svg" ""].

(** An extension with a single dot: empty, or a dot followed by bytes
    that are neither dots nor separators. *)
Definition is_dot_ext (x : string) : bool :=
  match x with
  | EmptyString => true
  | String c r =>
      Ascii.eqb c "." && negb (Str.contains "." r) && negb (Str.contains "/" r)
  end.

(** ** Concrete inputs *)

(** Two books used as concrete inputs. *)
Definition emptyBook : Epub := NewEpub "f47ac10b-58cc-4372-a567-0e02b2c3d479" "My title".

Definition smallBook : Epub :=
  exec [CallAddImage "testdata/gophercolor16x16.png" "image0002.png";
        CallAddSection "Section 1" "<h1>Section 1</h1>" "section0002.xhtml";
        CallSetAuthor "Hingle McCringleberry"] emptyBook.

(** Calls of every kind but [SetTitle]. *)
Definition interleavedCalls : list call :=
  [CallSetAuthor "A"; CallAddImage "a.png" ""; CallSetUUID "x";
   CallAddSection "S" "<p/>" ""; CallSetLang "fr"].

(** Two images with names of their own. *)
Definition twoImages : list (string * string) :=
  [("testdata/a.png", "one.png"); ("testdata/b.png", "two.png")].

(** * Facts about the library functions *)

Section StringFacts.

Lemma append_cons (c : ascii) (a b : string) :
  String c a +:+ b = String c (a +:+ b).
Proof. reflexivity. Qed.

Lemma append_nil_l (b : string) : "" +:+ b = b.
Proof. reflexivity. Qed.

Lemma append_nil_r (s : string) : s +:+ "" = s.
Proof.
  induction s as [|c s IH]; [done |]. by rewrite append_cons, IH.
Qed.

Lemma append_assoc (a b c : string) : (a +:+ b) +:+ c = a +:+ (b +:+ c).
Proof.
  induction a as [|x a IH]; [done |]. by rewrite !append_cons, IH.
Qed.

Lemma contains_app (c : ascii) (a b : string) :
  Str.contains c (a +:+ b) = Str.contains c a || Str.contains c b.
Proof.
  induction a as [|x a IH]; [done |].
  rewrite append_cons. simpl.
  destruct (Ascii.eqb x c); [done | exact IH].
Qed.

Lemma pad_app (c : ascii) (k : nat) (s : string) :
  String.length (Str.pad c k s) = k + String.length s.
Proof. induction k as [|k IH]; simpl; [done | by rewrite IH]. Qed.

Lemma all_digits_pad (k : nat) (s : string) :
  Str.all_digits s = true → Str.all_digits (Str.pad "0" k s) = true.
Proof. intros Hs. induction k as [|k IH]; simpl; [done | exact IH]. Qed.

Lemma all_digits_of_uint (d : uint) :
  Str.all_digits (NilEmpty.string_of_uint d) = true.
Proof. induction d; simpl; auto. Qed.

Lemma all_digits_no_sep (s : string) :
  Str.all_digits s = true → Str.contains "/" s = false.
Proof.
  induction s as [|c s IH]; simpl; [done |].
  intros [Hc Hs]%andb_prop.
  destruct (Ascii.eqb_spec c "/") as [-> | _]; [discriminate Hc | auto].
Qed.

(** Zeros in front do not change the number a digit string writes. *)
Lemma parse_nat_pad (k : nat) (s : string) :
  parse_nat (Str.pad "0" k s) = parse_nat s.
Proof.
  unfold parse_nat. induction k as [|k IH]; simpl; [done |].
  destruct (NilEmpty.uint_of_string (Str.pad "0" k s)) as [d|] eqn:E;
    destruct (NilEmpty.uint_of_string s) as [d'|] eqn:E';
    simpl in *; try done.
Qed.

Lemma parse_sprintf_04d (n : nat) : parse_nat (sprintf_04d n) = Some n.
Proof.
  unfold sprintf_04d. cbv zeta. rewrite parse_nat_pad.
  unfold parse_nat. rewrite NilEmpty.usu. simpl.
  by rewrite DecimalNat.Unsigned.of_to.
Qed.

Lemma sprintf_04d_inj (n m : nat) : sprintf_04d n = sprintf_04d m → n = m.
Proof.
  intros H. pose proof (parse_sprintf_04d n) as Hn.
  rewrite H, parse_sprintf_04d in Hn. by injection Hn.
Qed.

Lemma sprintf_04d_digits (n : nat) : Str.all_digits (sprintf_04d n) = true.
Proof. apply all_digits_pad, all_digits_of_uint. Qed.

(** A digit string followed by an extension determines both. *)
Lemma digits_ext_unique (d1 d2 x1 x2 : string) :
  Str.all_digits d1 = true → Str.all_digits d2 = true →
  is_ext x1 = true → is_ext x2 = true →
  d1 +:+ x1 = d2 +:+ x2 → d1 = d2 ∧ x1 = x2.
Proof.
  revert d2. induction d1 as [|c d1 IH]; intros [|c' d2] H1 H2 Hx1 Hx2 E;
    rewrite ?append_cons, ?append_nil_l in E; simpl in *.
  - done.
  - subst x1. simpl in Hx1.
    apply andb_prop in H2 as [Hc _]. apply andb_prop in Hx1 as [Hd _].
    apply Ascii.eqb_eq in Hd. subst c'. discriminate Hc.
  - subst x2. simpl in Hx2.
    apply andb_prop in H1 as [Hc _]. apply andb_prop in Hx2 as [Hd _].
    apply Ascii.eqb_eq in Hd. subst c. discriminate Hc.
  - injection E as -> E.
    apply andb_prop in H1 as [_ H1]. apply andb_prop in H2 as [_ H2].
    destruct (IH d2 H1 H2 Hx1 Hx2 E) as [-> ->]. done.
Qed.

End StringFacts.

Section PathFacts.

Import filepath.

Lemma IsPathSeparator_contains (c : ascii) (r : string) :
  Str.contains "/" (String c r) = IsPathSeparator c || Str.contains "/" r.
Proof.
  unfold IsPathSeparator, Separator. simpl.
  by destruct (Ascii.eqb c "/").
Qed.

(** The scan of [Ext] ends on its candidate, on the empty string, or on a
    dot followed by the bytes after the last separator. *)
Lemma ext_from_cases (path cand : string) :
  (ext_from cand path = cand ∧ Str.contains "/" path = false)
  ∨ is_ext (ext_from cand path) = true.
Proof.
  revert cand. induction path as [|c r IH]; intros cand; [by left |].
  rewrite IsPathSeparator_contains. simpl.
  destruct (IsPathSeparator c) eqn:Hsep.
  - right. destruct (IH "") as [[-> _] | H]; done.
  - destruct (Ascii.eqb_spec c ".") as [-> | Hdot].
    + right. destruct (IH (String "." r)) as [[-> Hr] | H]; [| done].
      simpl. by rewrite Hr.
    + destruct (IH cand) as [[-> Hr] | H]; [by left | by right].
Qed.

Lemma Ext_is_ext (path : string) : is_ext (Ext path) = true.
Proof.
  unfold Ext. by destruct (ext_from_cases path "") as [[-> _] | H].
Qed.

Lemma is_ext_no_sep (x : string) :
  is_ext x = true → Str.contains "/" x = false.
Proof.
  destruct x as [|c r]; [done |]. simpl.
  intros [Hc Hr]%andb_prop. apply Ascii.eqb_eq in Hc as ->.
  simpl. by apply negb_true_iff.
Qed.

Lemma elements_not_nil (path : string) : elements path ≠ [].
Proof.
  destruct path as [|c r]; simpl; [done |].
  destruct (IsPathSeparator c); [done |]. by destruct (elements r).
Qed.

(** A path without separator is its only element. *)
Lemma elements_no_sep (path : string) :
  Str.contains "/" path = false → elements path = [path].
Proof.
  induction path as [|c r IH]; [done |].
  rewrite IsPathSeparator_contains. intros [Hc Hr]%orb_false_elim.
  simpl. rewrite Hc, (IH Hr). done.
Qed.

Lemma elements_app_sep (a b : string) :
  Str.contains "/" a = false →
  elements (a +:+ "/" +:+ b) = a :: elements b.
Proof.
  induction a as [|c r IH]; [done |].
  rewrite IsPathSeparator_contains. intros [Hc Hr]%orb_false_elim.
  rewrite append_cons. simpl. rewrite Hc, (IH Hr). done.
Qed.

(** Joining the elements of a path gives the path back. *)
Lemma join_elements (path : string) : Str.join "/" (elements path) = path.
Proof.
  induction path as [|c r IH]; [done |]. simpl.
  destruct (IsPathSeparator c) eqn:Hc.
  - apply Ascii.eqb_eq in Hc as ->.
    pose proof (elements_not_nil r) as Hne.
    destruct (elements r) as [|x xs] eqn:E; [done |].
    change (Str.join "/" ("" :: x :: xs)) with ("/" +:+ Str.join "/" (x :: xs)).
    by rewrite IH.
  - pose proof (elements_not_nil r) as Hne.
    destruct (elements r) as [|x xs] eqn:E; [done |].
    rewrite <- IH. destruct xs as [|y ys]; [done |].
    change (Str.join "/" (String c x :: y :: ys))
      with (String c x +:+ "/" +:+ Str.join "/" (y :: ys)).
    by rewrite append_cons.
Qed.

Lemma clean_step_plain (r : bool) (out : list string) (x : string) :
  plain_element x = true → clean_step r out x = x :: out.
Proof.
  unfold plain_element, clean_step.
  intros [[H1 H2]%andb_prop H3]%andb_prop.
  apply negb_true_iff, String.eqb_neq in H1, H2, H3.
  by repeat case_decide.
Qed.

Lemma clean_fold_plain (r : bool) (xs out : list string) :
  forallb plain_element xs = true →
  fold_left (clean_step r) xs out = rev xs ++ out.
Proof.
  revert out. induction xs as [|x xs IH]; intros out; [done |].
  simpl. intros [Hx Hxs]%andb_prop.
  rewrite clean_step_plain, IH by done.
  by rewrite <- app_assoc.
Qed.

(** [Join] of [..], a plain folder and a clean relative name is their
    concatenation with slashes: nothing is there to clean. *)
Lemma Join_clean_relative (folder name : string) :
  Str.contains "/" folder = false → plain_element folder = true →
  clean_relative name = true →
  Join [".."; folder; name] = "../" +:+ folder +:+ "/" +:+ name.
Proof.
  unfold clean_relative. intros Hsep Hfolder Hname.
  pose proof (elements_not_nil name) as Hne.
  pose proof (join_elements name) as Hjoin.
  unfold Join. rewrite decide_False by done.
  change (Str.join "/" [".."; folder; name])
    with (".." +:+ "/" +:+ folder +:+ "/" +:+ name).
  unfold Clean.
  change (rooted (".." +:+ "/" +:+ folder +:+ "/" +:+ name)) with false.
  rewrite (elements_app_sep ".." _), (elements_app_sep folder _) by done.
  change (fold_left (clean_step false) (".." :: folder :: elements name) [])
    with (fold_left (clean_step false) (elements name)
            (clean_step false [".."] folder)).
  rewrite clean_step_plain by done.
  rewrite clean_fold_plain by done.
  rewrite rev_app_distr, rev_involutive. cbn [rev app].
  destruct (elements name) as [|x xs]; [done |].
  change (Str.join "/" (".." :: folder :: x :: xs))
    with ("../" +:+ folder +:+ "/" +:+ Str.join "/" (x :: xs)).
  rewrite Hjoin. cbv iota.
  rewrite decide_False; [done | discriminate].
Qed.

(** A name without separator that is neither empty nor a dot element is
    clean. *)
Lemma clean_relative_no_sep (name : string) :
  Str.contains "/" name = false → plain_element name = true →
  clean_relative name = true.
Proof.
  intros Hsep Hplain. unfold clean_relative.
  rewrite elements_no_sep by done. simpl. by rewrite Hplain.
Qed.

End PathFacts.

(** * Facts about the [Epub] operations *)

Section EpubFacts.

Lemma Epub_eta (e : Epub) :
  {| author := author e; images := images e; lang := lang e;
     e_pkg := e_pkg e; sections := sections e; title := title e;
     e_toc := e_toc e; uuid := uuid e |} = e.
Proof. by destruct e. Qed.

Lemma run_cons (c : call) (cs : list call) (e : Epub) :
  run (c :: cs) e =
  ((c, fst (step c e)) :: fst (run cs (snd (step c e))),
   snd (run cs (snd (step c e)))).
Proof.
  simpl. destruct (step c e) as [r e1]. simpl.
  by destruct (run cs e1) as [rs e2].
Qed.

Lemma exec_cons (c : call) (cs : list call) (e : Epub) :
  exec (c :: cs) e = exec cs (snd (step c e)).
Proof. unfold exec. by rewrite run_cons. Qed.

Lemma exec_nil (e : Epub) : exec [] e = e.
Proof. reflexivity. Qed.

(** A duplicate name: the error, and the very same [Epub]. *)
Lemma AddImage_used (s f : string) (e : Epub) :
  is_Some (images e !! imageFilenameFor s f e) →
  AddImage s f e = (("", Some ErrFilenameAlreadyUsed), e).
Proof. intros [v Hv]. unfold AddImage. cbv zeta. by rewrite Hv. Qed.

Lemma AddSection_used (t b f : string) (e : Epub) :
  is_Some (sections e !! sectionFilenameFor f e) →
  AddSection t b f e = (("", Some ErrFilenameAlreadyUsed), e).
Proof. intros [v Hv]. unfold AddSection. cbv zeta. by rewrite Hv. Qed.

(** A free name: the reference, and the [Epub] with one more entry. *)
Lemma AddImage_free (s f : string) (e : Epub) :
  images e !! imageFilenameFor s f e = None →
  fst (AddImage s f e)
  = (filepath.Join [".."; imageFolderName; imageFilenameFor s f e], None)
  ∧ images (snd (AddImage s f e))
    = <[imageFilenameFor s f e := s]> (images e).
Proof. intros Hv. unfold AddImage. cbv zeta. by rewrite Hv. Qed.

Lemma AddSection_free (t b f : string) (e : Epub) :
  sections e !! sectionFilenameFor f e = None →
  fst (AddSection t b f e) = (sectionFilenameFor f e, None)
  ∧ sections (snd (AddSection t b f e))
    = <[sectionFilenameFor f e := xhtml_setTitle t (newXhtml b)]> (sections e).
Proof. intros Hv. unfold AddSection. cbv zeta. by rewrite Hv. Qed.

(** What each call leaves alone. *)
Lemma AddImage_frame (s f : string) (e : Epub) :
  let e' := snd (AddImage s f e) in
  author e' = author e ∧ lang e' = lang e ∧ title e' = title e
  ∧ uuid e' = uuid e ∧ e_pkg e' = e_pkg e ∧ e_toc e' = e_toc e
  ∧ sections e' = sections e.
Proof.
  unfold AddImage. cbv zeta.
  by destruct (images e !! imageFilenameFor s f e).
Qed.

Lemma AddSection_frame (t b f : string) (e : Epub) :
  let e' := snd (AddSection t b f e) in
  author e' = author e ∧ lang e' = lang e ∧ title e' = title e
  ∧ uuid e' = uuid e ∧ e_pkg e' = e_pkg e ∧ e_toc e' = e_toc e
  ∧ images e' = images e.
Proof.
  unfold AddSection. cbv zeta.
  by destruct (sections e !! sectionFilenameFor f e).
Qed.

Lemma step_snd (c : call) (e : Epub) :
  snd (step c e) =
  match c with
  | CallAddImage s f => snd (AddImage s f e)
  | CallAddSection t b f => snd (AddSection t b f e)
  | CallSetAuthor a => SetAuthor a e
  | CallSetLang l => SetLang l e
  | CallSetTitle t => SetTitle t e
  | CallSetUUID u => SetUUID u e
  end.
Proof.
  destruct c; simpl; try done.
  - by destruct (AddImage _ _ e).
  - by destruct (AddSection _ _ _ e).
Qed.

(** A field keeps its value through calls that are not its setter. *)
Lemma step_keeps (fld : field) (c : call) (e : Epub) :
  sets fld c = false → getter fld (snd (step c e)) = getter fld e.
Proof.
  rewrite step_snd. destruct c as [s f | t b f | a | l | t | u].
  - destruct (AddImage_frame s f e) as (H1 & H2 & H3 & H4 & _).
    by destruct fld.
  - destruct (AddSection_frame t b f e) as (H1 & H2 & H3 & H4 & _).
    by destruct fld.
  - by destruct fld.
  - by destruct fld.
  - by destruct fld.
  - by destruct fld.
Qed.

Lemma exec_keeps (fld : field) (cs : list call) (e : Epub) :
  without (sets fld) cs = true → getter fld (exec cs e) = getter fld e.
Proof.
  revert e. induction cs as [|c cs IH]; intros e; [done |].
  simpl. intros [Hc Hcs]%andb_prop. apply negb_true_iff in Hc.
  rewrite exec_cons, IH by done. by apply step_keeps.
Qed.

Lemma step_mirrored (c : call) (e : Epub) :
  mirrored e → mirrored (snd (step c e)).
Proof.
  unfold mirrored. rewrite step_snd. intros (H1 & H2 & H3 & H4).
  destruct c; simpl; try done.
  - destruct (AddImage_frame imageSource imageFilename e)
      as (_ & _ & -> & -> & -> & -> & _). done.
  - destruct (AddSection_frame sectionTitle sectionContent sectionFilename e)
      as (_ & _ & -> & -> & -> & -> & _). done.
Qed.

Lemma exec_mirrored (cs : list call) (e : Epub) :
  mirrored e → mirrored (exec cs e).
Proof.
  revert e. induction cs as [|c cs IH]; intros e He; [done |].
  rewrite exec_cons. by apply IH, step_mirrored.
Qed.

End EpubFacts.

(** * Generated names *)

Section Numbering.

Variable fmt : nat → string → string.

(** Two numbers never give the same name. *)
Hypothesis fmt_inj : ∀ j k s s', fmt j s = fmt k s' → j = k.

Lemma numbered_empty : numbered fmt 0 ∅.
Proof.
  split; [apply map_size_empty |].
  intros k [v Hv]. by rewrite lookup_empty in Hv.
Qed.

Lemma numbered_fresh (n : nat) (m : gmap string string) (s : string) :
  numbered fmt n m → m !! fmt (n + 1) s = None.
Proof.
  intros [_ Hkeys].
  destruct (m !! fmt (n + 1) s) as [v|] eqn:E; [| done].
  destruct (Hkeys _ (mk_is_Some _ _ E)) as (j & s' & Hj & Heq).
  apply fmt_inj in Heq. lia.
Qed.

Lemma numbered_insert (n : nat) (m : gmap string string) (s v : string) :
  numbered fmt n m → numbered fmt (n + 1) (<[fmt (n + 1) s := v]> m).
Proof.
  intros Hm. pose proof (numbered_fresh n m s Hm) as Hfresh.
  destruct Hm as [Hsize Hkeys]. split.
  - rewrite map_size_insert_None by done. lia.
  - intros k Hk. destruct (decide (fmt (n + 1) s = k)) as [<- | Hne].
    + exists (n + 1), s. split; [lia | done].
    + rewrite lookup_insert_ne in Hk by done.
      destruct (Hkeys k Hk) as (j & s' & Hj & ->).
      exists j, s'. split; [lia | done].
Qed.

Lemma generated_from_lookup (srcs : list string) (n i : nat) (s : string) :
  srcs !! i = Some s →
  generated_from fmt n srcs !! i = Some (fmt (n + i + 1) s).
Proof.
  revert n i. induction srcs as [|s0 srcs IH]; intros n [|i] H; try done.
  - injection H as ->. simpl. by rewrite Nat.add_0_r.
  - simpl in *. rewrite (IH (n + 1) i H). do 2 f_equal. lia.
Qed.

Lemma generated_from_numbers (srcs : list string) (n : nat) (name : string) :
  name ∈ generated_from fmt n srcs → ∃ j s, n < j ∧ name = fmt j s.
Proof.
  revert n. induction srcs as [|s srcs IH]; intros n H; simpl in H.
  - by apply elem_of_nil in H.
  - apply elem_of_cons in H as [-> | H].
    + exists (n + 1), s. split; [lia | done].
    + destruct (IH _ H) as (j & s' & Hj & ->).
      exists j, s'. split; [lia | done].
Qed.

Lemma generated_from_NoDup (srcs : list string) (n : nat) :
  NoDup (generated_from fmt n srcs).
Proof.
  revert n. induction srcs as [|s srcs IH]; intros n; simpl.
  - constructor.
  - constructor; [| apply IH].
    intros (j & s' & Hj & Heq)%generated_from_numbers.
    apply fmt_inj in Heq. lia.
Qed.

Lemma generated_from_length (srcs : list string) (n : nat) :
  length (generated_from fmt n srcs) = length srcs.
Proof.
  revert n. induction srcs as [|s srcs IH]; intros n; simpl; [done |].
  by rewrite IH.
Qed.

End Numbering.

Section GeneratedNames.

Lemma append_inj_l (a b c : string) : a +:+ b = a +:+ c → b = c.
Proof.
  induction a as [|x a IH]; [done |].
  rewrite !append_cons. intros [= H]. by apply IH.
Qed.

Lemma imageFileFormat_inj (j k : nat) (x y : string) :
  is_ext x = true → is_ext y = true →
  imageFileFormat j x = imageFileFormat k y → j = k ∧ x = y.
Proof.
  intros Hx Hy H. unfold imageFileFormat in H. apply append_inj_l in H.
  apply digits_ext_unique in H as [Hd ->];
    auto using sprintf_04d_digits.
  split; [by apply sprintf_04d_inj | done].
Qed.

Lemma imageName_inj (j k : nat) (s s' : string) :
  imageName j s = imageName k s' → j = k.
Proof.
  intros H. by apply imageFileFormat_inj in H as [-> _];
    auto using Ext_is_ext.
Qed.

Lemma cssName_inj (j k : nat) (s s' : string) :
  cssName j s = cssName k s' → j = k.
Proof.
  unfold cssName, cssFileFormat. intros H%append_inj_l.
  by apply digits_ext_unique in H as [H%sprintf_04d_inj _];
    auto using sprintf_04d_digits.
Qed.

Lemma imageFileFormat_clean (n : nat) (x : string) :
  is_ext x = true → clean_relative (imageFileFormat n x) = true.
Proof.
  intros Hx. apply clean_relative_no_sep.
  - unfold imageFileFormat. rewrite !contains_app.
    rewrite (all_digits_no_sep _ (sprintf_04d_digits n)).
    by rewrite (is_ext_no_sep _ Hx).
  - reflexivity.
Qed.

Lemma cssFileFormat_clean (n : nat) : clean_relative (cssFileFormat n) = true.
Proof.
  apply clean_relative_no_sep.
  - unfold cssFileFormat. rewrite !contains_app.
    by rewrite (all_digits_no_sep _ (sprintf_04d_digits n)).
  - reflexivity.
Qed.

(** One generated [AddImage] on a numbered map. *)
Lemma AddImage_generated (n : nat) (s : string) (e : Epub) :
  numbered imageName n (images e) →
  fst (AddImage s "" e)
  = ("../" +:+ imageFolderName +:+ "/" +:+ imageName (n + 1) s, None)
  ∧ numbered imageName (n + 1) (images (snd (AddImage s "" e))).
Proof.
  intros Hm.
  assert (imageFilenameFor s "" e = imageName (n + 1) s) as Hname.
  { unfold imageFilenameFor. rewrite decide_True by done.
    by destruct Hm as [-> _]. }
  pose proof (numbered_fresh _ imageName_inj n _ s Hm) as Hfresh.
  rewrite <- Hname in Hfresh.
  destruct (AddImage_free s "" e Hfresh) as [-> ->].
  rewrite Hname. split.
  - rewrite Join_clean_relative; [done | done | done |].
    apply imageFileFormat_clean, Ext_is_ext.
  - by apply (numbered_insert _ imageName_inj).
Qed.

(** A run whose [AddImage] calls all generate their name. *)
Lemma run_generated (cs : list call) (e : Epub) (n : nat) :
  numbered imageName n (images e) → generated_only cs = true →
  image_returns (fst (run cs e))
  = (λ name, ("../" +:+ imageFolderName +:+ "/" +:+ name, None))
      <$> generated_from imageName n (image_sources cs)
  ∧ size (images (exec cs e)) = n + length (image_sources cs).
Proof.
  revert e n. induction cs as [|c cs IH]; intros e n Hm Hcs.
  - split; [done |]. rewrite exec_nil. destruct Hm as [-> _]. simpl. lia.
  - simpl in Hcs. apply andb_prop in Hcs as [Hc Hcs].
    rewrite run_cons, exec_cons.
    destruct c as [s f | t b f | a | l | t | u].
    + apply String.eqb_eq in Hc as ->.
      destruct (AddImage_generated n s e Hm) as [Hret Hm'].
      assert (snd (step (CallAddImage s "") e) = snd (AddImage s "" e)) as ->
        by apply step_snd.
      destruct (IH _ _ Hm' Hcs) as [IH1 IH2].
      assert (fst (step (CallAddImage s "") e) = Some (fst (AddImage s "" e)))
        as -> by (simpl; by destruct (AddImage s "" e)).
      cbn [fst image_returns image_sources generated_from fmap list_fmap].
      rewrite Hret, IH1, IH2. split; [done | simpl; lia].
    + assert (numbered imageName n
                (images (snd (step (CallAddSection t b f) e)))) as Hm'.
      { rewrite step_snd.
        destruct (AddSection_frame t b f e) as (_&_&_&_&_&_& ->). done. }
      destruct (IH _ _ Hm' Hcs) as [IH1 IH2]. split; [| done].
      cbn [fst image_sources].
      rewrite <- IH1. simpl. by destruct (AddSection t b f e).
    + exact (IH (SetAuthor a e) n Hm Hcs).
    + exact (IH (SetLang l e) n Hm Hcs).
    + exact (IH (SetTitle t e) n Hm Hcs).
    + exact (IH (SetUUID u e) n Hm Hcs).
Qed.

Lemma addAllCSS_cons (c f : string) (r : list (string * string))
  (css : gmap string string) :
  addAllCSS ((c, f) :: r) css
  = (fst (AddCSS c f css) :: fst (addAllCSS r (snd (AddCSS c f css))),
     snd (addAllCSS r (snd (AddCSS c f css)))).
Proof.
  simpl. destruct (AddCSS c f css) as [ret css1]. simpl.
  by destruct (addAllCSS r css1).
Qed.

(** One generated add-stylesheet on a numbered map. *)
Lemma AddCSS_generated (n : nat) (c : string) (css : gmap string string) :
  numbered cssName n css →
  fst (AddCSS c "" css)
  = ("../" +:+ cssFolderName +:+ "/" +:+ cssFileFormat (n + 1), None)
  ∧ numbered cssName (n + 1) (snd (AddCSS c "" css)).
Proof.
  intros Hm. pose proof (numbered_fresh _ cssName_inj n _ c Hm) as Hfresh.
  pose proof (numbered_insert _ cssName_inj n _ c c Hm) as Hins.
  unfold cssName in Hfresh, Hins.
  unfold AddCSS. rewrite decide_True by done. cbv zeta.
  destruct Hm as [Hsize _]. rewrite Hsize, Hfresh. cbn [fst snd].
  split; [| done].
  rewrite Join_clean_relative; [done | done | done |].
  apply cssFileFormat_clean.
Qed.

(** A sequence of add-stylesheet calls that all generate their name. *)
Lemma addAllCSS_generated (contents : list string)
  (css : gmap string string) (n : nat) :
  numbered cssName n css →
  fst (addAllCSS ((λ c, (c, "")) <$> contents) css)
  = (λ name, ("../" +:+ cssFolderName +:+ "/" +:+ name, None))
      <$> generated_from cssName n contents.
Proof.
  revert css n. induction contents as [|c r IH]; intros css n Hm; [done |].
  cbn [fmap list_fmap]. rewrite addAllCSS_cons. cbn [fst generated_from].
  destruct (AddCSS_generated n c css Hm) as [-> Hm'].
  by rewrite (IH _ _ Hm').
Qed.

End GeneratedNames.

(** * The order of the sections *)

Section SectionOrder.

(** Two sections with distinct explicit names, added in either order,
    leave the same [Epub]: the map of sections records no order. *)
Lemma AddSection_swap (e : Epub) (t1 b1 f1 t2 b2 f2 : string) :
  f1 ≠ "" → f2 ≠ "" → f1 ≠ f2 →
  sections e !! f1 = None → sections e !! f2 = None →
  exec [CallAddSection t1 b1 f1; CallAddSection t2 b2 f2] e
  = exec [CallAddSection t2 b2 f2; CallAddSection t1 b1 f1] e.
Proof.
  intros H1 H2 Hne Hf1 Hf2.
  rewrite !exec_cons, !exec_nil, !step_snd.
  unfold AddSection, sectionFilenameFor. cbv zeta.
  rewrite !decide_False by done. rewrite Hf1, Hf2. simpl.
  rewrite ?decide_False by done.
  rewrite !lookup_insert_ne by done. rewrite Hf1, Hf2. simpl.
  f_equal. by apply insert_insert_ne.
Qed.

End SectionOrder.

Section FourDigits.

Lemma sprintf_04d_min_width (k : nat) : 4 <= String.length (sprintf_04d k).
Proof. unfold sprintf_04d. cbv zeta. rewrite pad_app. lia. Qed.

(** Up to 9999 the number has exactly four digits. *)
Lemma sprintf_04d_width (k : nat) :
  k < 10 ^ 4 → String.length (sprintf_04d k) = 4.
Proof.
  assert (forallb (λ k, String.length (sprintf_04d k) =? 4) (seq 0 (10 ^ 4))
          = true) as Hall by (vm_compute; reflexivity).
  intros Hk. rewrite forallb_forall in Hall.
  apply Nat.eqb_eq, Hall, in_seq. lia.
Qed.

Lemma sprintf_04d_10000 : sprintf_04d (10 ^ 4) = "10000".
Proof. vm_compute. reflexivity. Qed.

End FourDigits.

Section Examples.

Lemma AddImage_ok (s f : string) (e : Epub) :
  snd (fst (AddImage s f e)) = None →
  images e !! imageFilenameFor s f e = None.
Proof.
  unfold AddImage. cbv zeta.
  by destruct (images e !! imageFilenameFor s f e).
Qed.

Lemma AddSection_ok (t b f : string) (e : Epub) :
  snd (fst (AddSection t b f e)) = None →
  sections e !! sectionFilenameFor f e = None.
Proof.
  unfold AddSection. cbv zeta.
  by destruct (sections e !! sectionFilenameFor f e).
Qed.

#[local] Instance reference_inj (folder : string) :
  Inj (=) (=) (λ name, "../" +:+ folder +:+ "/" +:+ name).
Proof. intros a b H. by do 3 apply append_inj_l in H. Qed.

(** The example of the package documentation: one image with a name of
    its own, then one with a generated name. *)
Lemma AddImage_named_then_generated (e : Epub) (s1 s2 : string) :
  images e = ∅ → filepath.Ext s2 = ".png" →
  (run [CallAddImage s1 "go-gopher.png"; CallAddImage s2 ""] e).1
  = [(CallAddImage s1 "go-gopher.png", Some ("../img/go-gopher.png", None));
     (CallAddImage s2 "", Some ("../img/image0002.png", None))].
Proof.
  intros He Hext.
  assert (AddImage s1 "go-gopher.png" e
          = (("../img/go-gopher.png", None),
             {| author := author e;
                images := <["go-gopher.png" := s1]> (images e);
                lang := lang e; e_pkg := e_pkg e; sections := sections e;
                title := title e; e_toc := e_toc e; uuid := uuid e |})) as H1.
  { unfold AddImage, imageFilenameFor. cbv zeta.
    rewrite decide_False by done. by rewrite He, lookup_empty. }
  rewrite run_cons. cbn [step]. rewrite H1. cbn [fst snd].
  rewrite run_cons. cbn [step run fst snd].
  unfold AddImage, imageFilenameFor. cbv zeta.
  rewrite decide_True by done. cbn [images].
  rewrite He, Hext, map_size_insert_None, map_size_empty
    by apply lookup_empty.
  change (imageFileFormat (1 + 1) ".png") with "image0002.png".
  rewrite lookup_insert_ne by done. rewrite lookup_empty. done.
Qed.

(** The example of the package documentation for sections. *)
Lemma AddSection_named_then_generated (e : Epub) (t1 b1 t2 b2 : string) :
  sections e = ∅ →
  (run [CallAddSection t1 b1 "firstsection.xhtml"; CallAddSection t2 b2 ""] e).1
  = [(CallAddSection t1 b1 "firstsection.xhtml",
      Some ("firstsection.xhtml", None));
     (CallAddSection t2 b2 "", Some ("section0002.xhtml", None))].
Proof.
  intros He.
  assert (AddSection t1 b1 "firstsection.xhtml" e
          = (("firstsection.xhtml", None),
             {| author := author e; images := images e;
                lang := lang e; e_pkg := e_pkg e;
                sections := <["firstsection.xhtml"
                              := xhtml_setTitle t1 (newXhtml b1)]> (sections e);
                title := title e; e_toc := e_toc e; uuid := uuid e |})) as H1.
  { unfold AddSection, sectionFilenameFor. cbv zeta.
    rewrite decide_False by done. by rewrite He, lookup_empty. }
  rewrite run_cons. cbn [step]. rewrite H1. cbn [fst snd].
  rewrite run_cons. cbn [step run fst snd].
  unfold AddSection, sectionFilenameFor. cbv zeta.
  rewrite decide_True by done. cbn [sections].
  rewrite He, map_size_insert_None, map_size_empty by apply lookup_empty.
  change (sectionFileFormat (1 + 1)) with "section0002.xhtml".
  rewrite lookup_insert_ne by done. rewrite lookup_empty. done.
Qed.

End Examples.

(** * The claims *)

(** C2: when the file name of an [AddImage] or [AddSection] call, given
    or generated, is already a key of that operation's own map, the call
    returns the empty string with [ErrFilenameAlreadyUsed], and the
    [Epub] after the call is the [Epub] before it: images, sections and
    all metadata. *)
Theorem duplicate_filename_leaves_Epub_unchanged
  (e : Epub) (s t b f : string) :
  (is_Some (images e !! imageFilenameFor s f e) →
   AddImage s f e = (("", Some ErrFilenameAlreadyUsed), e))
  ∧ (is_Some (sections e !! sectionFilenameFor f e) →
     AddSection t b f e = (("", Some ErrFilenameAlreadyUsed), e)).
Proof. split; [apply AddImage_used | apply AddSection_used]. Qed.

Lemma duplicate_filename_witness :
  is_Some (images smallBook !! imageFilenameFor "other.png" "image0002.png" smallBook)
  ∧ AddImage "other.png" "image0002.png" smallBook
    = (("", Some ErrFilenameAlreadyUsed), smallBook)
  ∧ is_Some (sections smallBook !! sectionFilenameFor "section0002.xhtml" smallBook)
  ∧ AddSection "Again" "<p/>" "section0002.xhtml" smallBook
    = (("", Some ErrFilenameAlreadyUsed), smallBook).
Proof.
  destruct (duplicate_filename_leaves_Epub_unchanged
              smallBook "other.png" "Again" "<p/>" "image0002.png") as [Hi _].
  destruct (duplicate_filename_leaves_Epub_unchanged
              smallBook "other.png" "Again" "<p/>" "section0002.xhtml") as [_ Hs].
  assert (is_Some (images smallBook
                   !! imageFilenameFor "other.png" "image0002.png" smallBook))
    as H1 by (vm_compute; eexists; reflexivity).
  assert (is_Some (sections smallBook
                   !! sectionFilenameFor "section0002.xhtml" smallBook))
    as H2 by (vm_compute; eexists; reflexivity).
  exact (conj H1 (conj (Hi H1) (conj H2 (Hs H2)))).
Defined.

(** C5: a value given to [SetAuthor], [SetTitle], [SetLang] or [SetUUID]
    is what the getter of that field returns afterwards, whatever other
    calls come in between, as long as none of them is the same setter. *)
Theorem setter_getter_roundtrip
  (fld : field) (v : string) (e : Epub) (cs : list call) :
  without (sets fld) cs = true →
  getter fld (exec cs (setter fld v e)) = v.
Proof.
  intros Hcs. rewrite exec_keeps by done. by destruct fld.
Qed.

Lemma setter_getter_roundtrip_witness :
  without (sets FTitle) interleavedCalls = true
  ∧ Title (exec interleavedCalls (SetTitle "New title" smallBook))
    = "New title".
Proof.
  split; [reflexivity |].
  apply (setter_getter_roundtrip FTitle "New title" smallBook interleavedCalls).
  reflexivity.
Defined.

(** C6: after [SetTitle] the title of the package document, the title of
    the table of contents and the title of the [Epub] are the value set;
    after [SetUUID] the identifier of both documents is the value set
    behind the prefix [urn:uuid:]; the copies agree in the [Epub] that
    [NewEpub] returns and after every sequence of calls on it, and no call
    breaks the agreement. *)
Theorem title_and_uuid_mirrored :
  (∀ t e, pkg_title (e_pkg (SetTitle t e)) = t
          ∧ toc_title (e_toc (SetTitle t e)) = t
          ∧ Title (SetTitle t e) = t)
  ∧ (∀ u e, pkg_uuid (e_pkg (SetUUID u e)) = "urn:uuid:" +:+ u
            ∧ toc_uuid (e_toc (SetUUID u e)) = "urn:uuid:" +:+ u
            ∧ UUID (SetUUID u e) = u)
  ∧ (∀ newV4 t cs, mirrored (exec cs (NewEpub newV4 t)))
  ∧ (∀ c e, mirrored e → mirrored (snd (step c e))).
Proof.
  split; [done |]. split; [done |]. split.
  - intros newV4 t cs. by apply exec_mirrored.
  - apply step_mirrored.
Qed.

Lemma title_and_uuid_mirrored_witness :
  mirrored smallBook
  ∧ mirrored (snd (step (CallSetUUID "0000") smallBook)).
Proof.
  destruct title_and_uuid_mirrored as (_ & _ & Hreach & Hstep).
  assert (mirrored smallBook) as H by apply Hreach.
  exact (conj H (Hstep (CallSetUUID "0000") smallBook H)).
Defined.

(** C7: [NewEpub] with the title [t] returns an [Epub] whose language is
    the default [en], whose identifier is the UUID just generated, whose
    title is [t], and whose maps of images and of sections are empty. *)
Theorem NewEpub_defaults (newV4 t : string) :
  Lang (NewEpub newV4 t) = defaultEpubLang
  ∧ defaultEpubLang = "en"
  ∧ UUID (NewEpub newV4 t) = newV4
  ∧ Title (NewEpub newV4 t) = t
  ∧ images (NewEpub newV4 t) = ∅
  ∧ sections (NewEpub newV4 t) = ∅.
Proof. by repeat split. Qed.

(** C9: with an empty file name, when the name built from the current
    number of entries plus one is already a key of the map, [AddImage]
    and [AddSection] return [ErrFilenameAlreadyUsed] and change nothing;
    no later number is tried. *)
Theorem generated_name_taken_is_error (e : Epub) (s t b : string) :
  (is_Some (images e
            !! imageFileFormat (size (images e) + 1) (filepath.Ext s)) →
   AddImage s "" e = (("", Some ErrFilenameAlreadyUsed), e))
  ∧ (is_Some (sections e !! sectionFileFormat (size (sections e) + 1)) →
     AddSection t b "" e = (("", Some ErrFilenameAlreadyUsed), e)).
Proof.
  split; intros H; [apply AddImage_used | apply AddSection_used]; exact H.
Qed.

Lemma generated_name_taken_witness :
  is_Some (images smallBook
           !! imageFileFormat (size (images smallBook) + 1)
                (filepath.Ext "https://golang.org/doc/gopher/gophercolor16x16.png"))
  ∧ AddImage "https://golang.org/doc/gopher/gophercolor16x16.png" "" smallBook
    = (("", Some ErrFilenameAlreadyUsed), smallBook)
  ∧ is_Some (sections smallBook
             !! sectionFileFormat (size (sections smallBook) + 1))
  ∧ AddSection "Section 2" "<h1>Section 2</h1>" "" smallBook
    = (("", Some ErrFilenameAlreadyUsed), smallBook).
Proof.
  destruct (generated_name_taken_is_error smallBook
              "https://golang.org/doc/gopher/gophercolor16x16.png"
              "Section 2" "<h1>Section 2</h1>") as [Hi Hs].
  assert (is_Some (images smallBook
           !! imageFileFormat (size (images smallBook) + 1)
                (filepath.Ext "https://golang.org/doc/gopher/gophercolor16x16.png")))
    as H1 by (vm_compute; eexists; reflexivity).
  assert (is_Some (sections smallBook
             !! sectionFileFormat (size (sections smallBook) + 1)))
    as H2 by (vm_compute; eexists; reflexivity).
  exact (conj H1 (conj (Hi H1) (conj H2 (Hs H2)))).
Defined.

(** C10: [SetAuthor] and [SetLang] change the field of the [Epub] and the
    same field of the package document, and nothing else: the table of
    contents stays as it is.  [SetTitle] and [SetUUID] are the only calls
    that change the table of contents.  No setter changes the map of
    images or the map of sections. *)
Theorem setters_frame (v : string) (e : Epub) :
  (SetAuthor v e
   = {| author := v; images := images e; lang := lang e;
        e_pkg := pkg_setAuthor v (e_pkg e); sections := sections e;
        title := title e; e_toc := e_toc e; uuid := uuid e |}
   ∧ pkg_lang (pkg_setAuthor v (e_pkg e)) = pkg_lang (e_pkg e)
   ∧ pkg_title (pkg_setAuthor v (e_pkg e)) = pkg_title (e_pkg e)
   ∧ pkg_uuid (pkg_setAuthor v (e_pkg e)) = pkg_uuid (e_pkg e))
  ∧ (SetLang v e
     = {| author := author e; images := images e; lang := v;
          e_pkg := pkg_setLang v (e_pkg e); sections := sections e;
          title := title e; e_toc := e_toc e; uuid := uuid e |}
     ∧ pkg_author (pkg_setLang v (e_pkg e)) = pkg_author (e_pkg e)
     ∧ pkg_title (pkg_setLang v (e_pkg e)) = pkg_title (e_pkg e)
     ∧ pkg_uuid (pkg_setLang v (e_pkg e)) = pkg_uuid (e_pkg e))
  ∧ (e_toc (SetAuthor v e) = e_toc e ∧ e_toc (SetLang v e) = e_toc e
     ∧ (∀ s f, e_toc (snd (AddImage s f e)) = e_toc e)
     ∧ (∀ t b f, e_toc (snd (AddSection t b f e)) = e_toc e))
  ∧ (e_toc (SetTitle v e) = toc_setTitle v (e_toc e)
     ∧ e_toc (SetUUID v e) = toc_setUUID (urnUUIDPrefix +:+ v) (e_toc e))
  ∧ (images (SetAuthor v e) = images e ∧ sections (SetAuthor v e) = sections e)
  ∧ (images (SetLang v e) = images e ∧ sections (SetLang v e) = sections e)
  ∧ (images (SetTitle v e) = images e ∧ sections (SetTitle v e) = sections e)
  ∧ (images (SetUUID v e) = images e ∧ sections (SetUUID v e) = sections e).
Proof.
  repeat split; try done.
  - intros s f. by destruct (AddImage_frame s f e) as (_&_&_&_&_& H &_).
  - intros t b f. by destruct (AddSection_frame t b f e) as (_&_&_&_&_& H &_).
Qed.

(** C1: the two orders in which two sections with names of their own can
    be added to a new [Epub] both succeed and end in the same [Epub], so
    nothing computed from the [Epub] (spine, either table of contents)
    can list the sections in insertion order for both. *)
Theorem sections_forget_insertion_order (newV4 t : string) :
  let e0 := NewEpub newV4 t in
  let one := CallAddSection "One" "<p>1</p>" "one.xhtml" in
  let two := CallAddSection "Two" "<p>2</p>" "two.xhtml" in
  (run [one; two] e0).1
  = [(one, Some ("one.xhtml", None)); (two, Some ("two.xhtml", None))]
  ∧ (run [two; one] e0).1
    = [(two, Some ("two.xhtml", None)); (one, Some ("one.xhtml", None))]
  ∧ exec [one; two] e0 = exec [two; one] e0
  ∧ ∀ order : Epub → list string,
      ¬ (order (exec [one; two] e0) = ["one.xhtml"; "two.xhtml"]
         ∧ order (exec [two; one] e0) = ["two.xhtml"; "one.xhtml"]).
Proof.
  intros e0 one two.
  assert (exec [one; two] e0 = exec [two; one] e0) as Hsame
    by (apply AddSection_swap; done).
  split; [reflexivity |]. split; [reflexivity |]. split; [exact Hsame |].
  intros order [H1 H2]. rewrite Hsame, H2 in H1. discriminate H1.
Qed.

(** C3, as the code has it: in a run on an [Epub] without images whose
    [AddImage] calls all leave the file name empty, every such call
    succeeds; the call number [i + 1] returns [../img/] followed by the
    name [image], the number [i + 1] as written by [%04d], and the
    extension of its source; the names are pairwise distinct; the number
    of a call is the number of images at that time plus one.  The digits
    written by [%04d] are those of the number, at least four of them, and
    exactly four up to 9999.  After an image named [go-gopher.png] in such
    an [Epub], a [.png] source with an empty name returns
    [../img/image0002.png].  Stylesheets added with empty names to an
    empty map get [../css/css], the number and [.css] in the same way. *)
Theorem generated_image_names (e : Epub) (cs : list call) :
  images e = ∅ → generated_only cs = true →
  let rets := image_returns (run cs e).1 in
  length rets = length (image_sources cs)
  ∧ (∀ i s, image_sources cs !! i = Some s →
       rets !! i
       = Some ("../" +:+ imageFolderName +:+ "/" +:+ imagePrefix
               +:+ sprintf_04d (i + 1) +:+ filepath.Ext s, None))
  ∧ NoDup rets.*1
  ∧ size (images (exec cs e)) = length (image_sources cs)
  ∧ (∀ s e', imageFilenameFor s "" e'
             = imagePrefix +:+ sprintf_04d (size (images e') + 1)
               +:+ filepath.Ext s)
  ∧ (∀ k, Str.all_digits (sprintf_04d k) = true
          ∧ parse_nat (sprintf_04d k) = Some k
          ∧ 4 <= String.length (sprintf_04d k)
          ∧ (k < 10 ^ 4 → String.length (sprintf_04d k) = 4))
  ∧ (∀ s1 s2, filepath.Ext s2 = ".png" →
       (run [CallAddImage s1 "go-gopher.png"; CallAddImage s2 ""] e).1
       = [(CallAddImage s1 "go-gopher.png",
           Some ("../img/go-gopher.png", None));
          (CallAddImage s2 "", Some ("../img/image0002.png", None))])
  ∧ (∀ contents : list string,
       let crets := (addAllCSS ((λ c, (c, "")) <$> contents) ∅).1 in
       length crets = length contents
       ∧ (∀ i c, contents !! i = Some c →
            crets !! i
            = Some ("../" +:+ cssFolderName +:+ "/" +:+ "css"
                    +:+ sprintf_04d (i + 1) +:+ ".css", None))
       ∧ NoDup crets.*1).
Proof.
  intros He Hcs rets.
  assert (numbered imageName 0 (images e)) as Hnum
    by (rewrite He; apply numbered_empty).
  destruct (run_generated cs e 0 Hnum Hcs) as [Hret Hsize].
  fold rets in Hret. repeat split.
  - by rewrite Hret, length_fmap, generated_from_length.
  - intros i s Hi.
    by rewrite Hret, list_lookup_fmap, (generated_from_lookup _ _ 0 i s Hi).
  - rewrite Hret, <- list_fmap_compose.
    apply (NoDup_fmap_2 (λ name, "../" +:+ imageFolderName +:+ "/" +:+ name)).
    apply generated_from_NoDup, imageName_inj.
  - exact Hsize.
  - apply sprintf_04d_digits.
  - apply parse_sprintf_04d.
  - apply sprintf_04d_min_width.
  - apply sprintf_04d_width.
  - intros s1 s2. by apply AddImage_named_then_generated.
  - rewrite (addAllCSS_generated contents ∅ 0) by apply numbered_empty.
    by rewrite length_fmap, generated_from_length.
  - intros i c Hi.
    rewrite (addAllCSS_generated contents ∅ 0) by apply numbered_empty.
    by rewrite list_lookup_fmap, (generated_from_lookup _ _ 0 i c Hi).
  - rewrite (addAllCSS_generated contents ∅ 0) by apply numbered_empty.
    rewrite <- list_fmap_compose.
    apply (NoDup_fmap_2 (λ name, "../" +:+ cssFolderName +:+ "/" +:+ name)).
    apply generated_from_NoDup, cssName_inj.
Qed.

Lemma generated_image_names_witness :
  images emptyBook = ∅
  ∧ generated_only
      [CallAddImage "a.png" ""; CallSetAuthor "A"; CallAddImage "b.c/d.tar.gz" "";
       CallAddSection "S" "<p/>" "image0003"; CallAddImage "noext" ""] = true
  ∧ image_returns
      (run [CallAddImage "a.png" ""; CallSetAuthor "A";
            CallAddImage "b.c/d.tar.gz" "";
            CallAddSection "S" "<p/>" "image0003"; CallAddImage "noext" ""]
         emptyBook).1 !! 2
    = Some ("../img/image0003", None).
Proof.
  split; [reflexivity |]. split; [reflexivity |].
  destruct (generated_image_names emptyBook
              [CallAddImage "a.png" ""; CallSetAuthor "A";
               CallAddImage "b.c/d.tar.gz" "";
               CallAddSection "S" "<p/>" "image0003"; CallAddImage "noext" ""]
              eq_refl eq_refl) as (_ & Hnth & _).
  exact (Hnth 2 "noext" eq_refl).
Defined.

(** C3 as stated fails on the call number 10000: its name carries the
    five digits [10000], so it is not the prefix, four digits and the
    extension. *)
Lemma generated_image_name_10000 :
  images emptyBook = ∅
  ∧ generated_only (repeat (CallAddImage "a.png" "") (10 ^ 4)) = true
  ∧ image_returns (run (repeat (CallAddImage "a.png" "") (10 ^ 4)) emptyBook).1
    !! (10 ^ 4 - 1)
    = Some ("../img/image10000.png", None)
  ∧ ¬ four_digit_name imagePrefix "image10000.png" "a.png".
Proof.
  split; [reflexivity |].
  assert (generated_only (repeat (CallAddImage "a.png" "") (10 ^ 4)) = true)
    as Hgen by (vm_compute; reflexivity).
  split; [exact Hgen |]. split.
  - destruct (run_generated _ emptyBook 0 (numbered_empty _) Hgen) as [-> _].
    rewrite list_lookup_fmap.
    rewrite (generated_from_lookup _ _ 0 (10 ^ 4 - 1) "a.png")
      by (vm_compute; reflexivity).
    replace (0 + (10 ^ 4 - 1) + 1) with (10 ^ 4) by (vm_compute; reflexivity).
    unfold imageName, imageFileFormat. rewrite sprintf_04d_10000. reflexivity.
  - intros (d & Hlen & _ & Heq).
    change (filepath.Ext "a.png") with ".png" in Heq.
    change "image10000.png" with (imagePrefix +:+ "10000" +:+ ".png") in Heq.
    apply append_inj_l in Heq.
    destruct d as [|c1 [|c2 [|c3 [|c4 [|c5 d]]]]]; try discriminate Hlen.
    discriminate Heq.
Qed.

(** C4, as the code has it: a successful [AddImage] returns
    [filepath.Join] of [..], the image folder [img] and the file name,
    which is [../img/] followed by the file name whenever that name is
    clean (plain elements separated by single slashes), as every
    generated name is; a successful [AddSection] returns the section file
    name itself, the given one when it is not empty.  A section named
    [firstsection.xhtml] returns [firstsection.xhtml], and the next one
    with an empty name returns [section0002.xhtml]. *)
Theorem add_returns_reference :
  (∀ s f e, snd (fst (AddImage s f e)) = None →
     fst (fst (AddImage s f e))
     = filepath.Join [".."; imageFolderName; imageFilenameFor s f e]
     ∧ (clean_relative (imageFilenameFor s f e) = true →
        fst (fst (AddImage s f e))
        = "../" +:+ imageFolderName +:+ "/" +:+ imageFilenameFor s f e)
     ∧ (f = "" → clean_relative (imageFilenameFor s f e) = true))
  ∧ imageFolderName = "img"
  ∧ (∀ t b f e, snd (fst (AddSection t b f e)) = None →
       fst (fst (AddSection t b f e)) = sectionFilenameFor f e
       ∧ (f ≠ "" → sectionFilenameFor f e = f))
  ∧ (∀ e t1 b1 t2 b2, sections e = ∅ →
       (run [CallAddSection t1 b1 "firstsection.xhtml";
             CallAddSection t2 b2 ""] e).1
       = [(CallAddSection t1 b1 "firstsection.xhtml",
           Some ("firstsection.xhtml", None));
          (CallAddSection t2 b2 "", Some ("section0002.xhtml", None))]).
Proof.
  split; [| split; [done |]; split].
  - intros s f e Hok%AddImage_ok.
    destruct (AddImage_free s f e Hok) as [-> _]. cbn [fst].
    split; [done |]. split.
    + intros Hclean. by apply Join_clean_relative.
    + intros ->. unfold imageFilenameFor. rewrite decide_True by done.
      apply imageFileFormat_clean, Ext_is_ext.
  - intros t b f e Hok%AddSection_ok.
    destruct (AddSection_free t b f e Hok) as [-> _]. cbn [fst].
    split; [done |]. intros Hf. unfold sectionFilenameFor.
    by rewrite decide_False.
  - intros e t1 b1 t2 b2. apply AddSection_named_then_generated.
Qed.

Lemma add_returns_reference_witness :
  snd (fst (AddImage "testdata/gophercolor16x16.png" "go-gopher.png" smallBook))
  = None
  ∧ clean_relative
      (imageFilenameFor "testdata/gophercolor16x16.png" "go-gopher.png" smallBook)
    = true
  ∧ fst (fst (AddImage "testdata/gophercolor16x16.png" "go-gopher.png" smallBook))
    = "../img/go-gopher.png"
  ∧ snd (fst (AddSection "Section 2" "<p/>" "second.xhtml" smallBook)) = None
  ∧ fst (fst (AddSection "Section 2" "<p/>" "second.xhtml" smallBook))
    = "second.xhtml"
  ∧ sections emptyBook = ∅
  ∧ (run [CallAddSection "Section 1" "<p/>" "firstsection.xhtml";
          CallAddSection "Section 2" "<p/>" ""] emptyBook).1
    = [(CallAddSection "Section 1" "<p/>" "firstsection.xhtml",
        Some ("firstsection.xhtml", None));
       (CallAddSection "Section 2" "<p/>" "", Some ("section0002.xhtml", None))].
Proof.
  destruct add_returns_reference as (Himg & _ & Hsec & Hex).
  assert (snd (fst (AddImage "testdata/gophercolor16x16.png" "go-gopher.png"
                      smallBook)) = None) as H1 by (vm_compute; reflexivity).
  assert (clean_relative
            (imageFilenameFor "testdata/gophercolor16x16.png" "go-gopher.png"
               smallBook) = true) as H2 by (vm_compute; reflexivity).
  assert (snd (fst (AddSection "Section 2" "<p/>" "second.xhtml" smallBook))
          = None) as H3 by (vm_compute; reflexivity).
  destruct (Himg _ _ _ H1) as (_ & Hclean & _).
  destruct (Hsec _ _ _ _ H3) as (Hname & Hgiven).
  split; [exact H1 |]. split; [exact H2 |].
  split; [exact (Hclean H2) |]. split; [exact H3 |].
  split; [rewrite Hname; apply Hgiven; discriminate |].
  split; [reflexivity |].
  apply Hex. reflexivity.
Defined.

(** C4 as stated fails for a file name that is not clean: the image
    [./cover.png] is added under that name, and the reference returned is
    [../img/cover.png], not [../img/./cover.png]. *)
Lemma AddImage_reference_is_cleaned :
  snd (fst (AddImage "cover.png" "./cover.png" emptyBook)) = None
  ∧ images (snd (AddImage "cover.png" "./cover.png" emptyBook))
    !! "./cover.png" = Some "cover.png"
  ∧ fst (fst (AddImage "cover.png" "./cover.png" emptyBook))
    = "../img/cover.png"
  ∧ fst (fst (AddImage "cover.png" "./cover.png" emptyBook))
    ≠ "../" +:+ imageFolderName +:+ "/" +:+ "./cover.png".
Proof.
  split; [reflexivity |]. split; [vm_compute; reflexivity |].
  split; [reflexivity |]. vm_compute. discriminate.
Qed.

(** C8: whenever [Write] succeeds, the first entry of the archive is
    named [mimetype], is stored without compression, and holds exactly the
    fixed media-type string. *)
Theorem Write_first_entry_is_mimetype
  (mediaTypeString containerDescriptor : string)
  (fetch mediaTypeOf : string → option string)
  (packageDocument tocNcx navXhtml : Epub → string)
  (sectionDocument : xhtml → string)
  (e : Epub) (archive : list entry) :
  Write mediaTypeString containerDescriptor fetch mediaTypeOf
    packageDocument tocNcx navXhtml sectionDocument e = inr archive →
  ∃ rest,
    archive = {| entry_name := "mimetype"; entry_stored := true;
                 entry_content := mediaTypeString |} :: rest.
Proof.
  unfold Write. destruct (forallb _ _); [| discriminate].
  destruct (fetchImages _ _) as [imgs|]; [| discriminate].
  intros [= <-]. eexists. reflexivity.
Qed.

Lemma Write_first_entry_witness :
  ∃ archive,
    Write "application/epub+zip" "<container/>"
      (λ _, Some "bytes") (λ _, Some "image/png")
      (λ _, "<package/>") (λ _, "<ncx/>") (λ _, "<html/>") xhtml_body
      smallBook = inr archive
    ∧ head archive
      = Some {| entry_name := "mimetype"; entry_stored := true;
                entry_content := "application/epub+zip" |}.
Proof.
  destruct (Write "application/epub+zip" "<container/>"
              (λ _, Some "bytes") (λ _, Some "image/png")
              (λ _, "<package/>") (λ _, "<ncx/>") (λ _, "<html/>") xhtml_body
              smallBook) as [err | archive] eqn:Hw;
    [vm_compute in Hw; discriminate Hw |].
  exists archive. split; [reflexivity |].
  destruct (Write_first_entry_is_mimetype _ _ _ _ _ _ _ _ _ _ Hw)
    as [rest ->].
  reflexivity.
Defined.

(** * Further properties of the add operations *)

Section AddFacts.

Lemma Clean_not_empty (path : string) : filepath.Clean path ≠ "".
Proof.
  unfold filepath.Clean. cbv zeta.
  destruct (filepath.rooted path); [discriminate |].
  by case_decide.
Qed.

Lemma imageFilenameFor_not_empty (s f : string) (e : Epub) :
  imageFilenameFor s f e ≠ "".
Proof.
  unfold imageFilenameFor. case_decide; [discriminate | done].
Qed.

Lemma sectionFilenameFor_not_empty (f : string) (e : Epub) :
  sectionFilenameFor f e ≠ "".
Proof.
  unfold sectionFilenameFor. case_decide; [discriminate | done].
Qed.

Lemma AddImage_cases (s f : string) (e : Epub) :
  (is_Some (images e !! imageFilenameFor s f e)
   ∧ AddImage s f e = (("", Some ErrFilenameAlreadyUsed), e))
  ∨ (images e !! imageFilenameFor s f e = None
     ∧ fst (AddImage s f e)
       = (filepath.Join [".."; imageFolderName; imageFilenameFor s f e], None)
     ∧ images (snd (AddImage s f e))
       = <[imageFilenameFor s f e := s]> (images e)).
Proof.
  destruct (images e !! imageFilenameFor s f e) as [v|] eqn:E.
  - left. split; [by eexists |]. apply AddImage_used. by eexists.
  - right. split; [done |]. by apply AddImage_free.
Qed.

Lemma AddSection_cases (t b f : string) (e : Epub) :
  (is_Some (sections e !! sectionFilenameFor f e)
   ∧ AddSection t b f e = (("", Some ErrFilenameAlreadyUsed), e))
  ∨ (sections e !! sectionFilenameFor f e = None
     ∧ fst (AddSection t b f e) = (sectionFilenameFor f e, None)
     ∧ sections (snd (AddSection t b f e))
       = <[sectionFilenameFor f e := xhtml_setTitle t (newXhtml b)]>
           (sections e)).
Proof.
  destruct (sections e !! sectionFilenameFor f e) as [v|] eqn:E.
  - left. split; [by eexists |]. apply AddSection_used. by eexists.
  - right. split; [done |]. by apply AddSection_free.
Qed.

Lemma Join_image_not_empty (name : string) :
  filepath.Join [".."; imageFolderName; name] ≠ "".
Proof. apply Clean_not_empty. Qed.

(** No call removes or changes an entry of either map. *)
Lemma step_maps_grow (c : call) (e : Epub) :
  images e ⊆ images (snd (step c e))
  ∧ sections e ⊆ sections (snd (step c e)).
Proof.
  rewrite step_snd. destruct c as [s f | t b f | a | l | t | u]; try done.
  - destruct (AddImage_frame s f e) as (_&_&_&_&_&_& ->). split; [| done].
    destruct (AddImage_cases s f e) as [[_ ->] | (Hn & _ & ->)]; [done |].
    by apply insert_subseteq.
  - destruct (AddSection_frame t b f e) as (_&_&_&_&_&_& ->). split; [done |].
    destruct (AddSection_cases t b f e) as [[_ ->] | (Hn & _ & ->)]; [done |].
    by apply insert_subseteq.
Qed.

Lemma exec_maps_grow (cs : list call) (e : Epub) :
  images e ⊆ images (exec cs e) ∧ sections e ⊆ sections (exec cs e).
Proof.
  revert e. induction cs as [|c cs IH]; intros e; [done |].
  rewrite exec_cons. destruct (step_maps_grow c e) as [Hi Hs].
  destruct (IH (snd (step c e))) as [Hi' Hs'].
  split; etrans; done.
Qed.

(** After a call of [AddImage] or [AddSection] its file name is a key. *)
Lemma AddImage_name_used (s f : string) (e : Epub) :
  is_Some (images (snd (AddImage s f e)) !! imageFilenameFor s f e).
Proof.
  destruct (AddImage_cases s f e) as [[H ->] | (_ & _ & ->)]; [done |].
  rewrite lookup_insert_eq. by eexists.
Qed.

Lemma AddSection_name_used (t b f : string) (e : Epub) :
  is_Some (sections (snd (AddSection t b f e)) !! sectionFilenameFor f e).
Proof.
  destruct (AddSection_cases t b f e) as [[H ->] | (_ & _ & ->)]; [done |].
  rewrite lookup_insert_eq. by eexists.
Qed.

Lemma is_Some_weaken {V : Type} (m1 m2 : gmap string V) (k : string) :
  m1 ⊆ m2 → is_Some (m1 !! k) → is_Some (m2 !! k).
Proof. intros Hsub [v Hv]. exists v. by eapply lookup_weaken. Qed.

(** The result of an add call depends on the map of its kind alone. *)
Lemma AddImage_depends_on_images (s f : string) (e1 e2 : Epub) :
  images e1 = images e2 →
  fst (AddImage s f e1) = fst (AddImage s f e2)
  ∧ images (snd (AddImage s f e1)) = images (snd (AddImage s f e2)).
Proof.
  intros H. unfold AddImage, imageFilenameFor. rewrite H. cbv zeta.
  by destruct (images e2 !! _).
Qed.

Lemma AddSection_depends_on_sections (t b f : string) (e1 e2 : Epub) :
  sections e1 = sections e2 →
  fst (AddSection t b f e1) = fst (AddSection t b f e2)
  ∧ sections (snd (AddSection t b f e1)) = sections (snd (AddSection t b f e2)).
Proof.
  intros H. unfold AddSection, sectionFilenameFor. rewrite H. cbv zeta.
  by destruct (sections e2 !! _).
Qed.

Lemma step_fst_image (s f : string) (e : Epub) :
  fst (step (CallAddImage s f) e) = Some (fst (AddImage s f e)).
Proof. simpl. by destruct (AddImage s f e). Qed.

Lemma step_fst_section (t b f : string) (e : Epub) :
  fst (step (CallAddSection t b f) e) = Some (fst (AddSection t b f e)).
Proof. simpl. by destruct (AddSection t b f e). Qed.

End AddFacts.

(** X1: the string an add call returns is empty exactly when the call
    returns the error, and the call returns the error exactly when its
    file name, given or generated, is already a key of its map. *)
Theorem add_result_empty_iff_error (s t b f : string) (e : Epub) :
  (fst (fst (AddImage s f e)) = ""
   ↔ snd (fst (AddImage s f e)) = Some ErrFilenameAlreadyUsed)
  ∧ (snd (fst (AddImage s f e)) = Some ErrFilenameAlreadyUsed
     ↔ is_Some (images e !! imageFilenameFor s f e))
  ∧ (fst (fst (AddSection t b f e)) = ""
     ↔ snd (fst (AddSection t b f e)) = Some ErrFilenameAlreadyUsed)
  ∧ (snd (fst (AddSection t b f e)) = Some ErrFilenameAlreadyUsed
     ↔ is_Some (sections e !! sectionFilenameFor f e)).
Proof.
  destruct (AddImage_cases s f e) as [[Hi ->] | (Hi & -> & _)];
    destruct (AddSection_cases t b f e) as [[Hs ->] | (Hs & -> & _)];
    cbn [fst snd]; rewrite ?Hi, ?Hs;
    pose proof (Join_image_not_empty (imageFilenameFor s f e));
    pose proof (sectionFilenameFor_not_empty f e);
    repeat split; try done; intros []; done.
Qed.

(** X2: a successful [AddImage] stores the source under the file name,
    which was free before, leaves every other image as it was, and makes
    the number of images one more. *)
Theorem AddImage_stores (s f : string) (e : Epub) :
  snd (fst (AddImage s f e)) = None →
  images e !! imageFilenameFor s f e = None
  ∧ images (snd (AddImage s f e)) !! imageFilenameFor s f e = Some s
  ∧ (∀ k, k ≠ imageFilenameFor s f e →
       images (snd (AddImage s f e)) !! k = images e !! k)
  ∧ size (images (snd (AddImage s f e))) = size (images e) + 1.
Proof.
  intros Hok%AddImage_ok. destruct (AddImage_free s f e Hok) as [_ ->].
  split; [done |]. split; [apply lookup_insert_eq |]. split.
  - intros k Hk. by rewrite lookup_insert_ne.
  - rewrite map_size_insert_None by done. lia.
Qed.

Lemma AddImage_stores_witness :
  snd (fst (AddImage "https://golang.org/doc/gopher/gophercolor16x16.png" ""
              emptyBook)) = None
  ∧ images (snd (AddImage "https://golang.org/doc/gopher/gophercolor16x16.png"
                   "" emptyBook)) !! "image0001.png"
    = Some "https://golang.org/doc/gopher/gophercolor16x16.png".
Proof.
  split; [reflexivity |].
  exact (proj1 (proj2 (AddImage_stores
    "https://golang.org/doc/gopher/gophercolor16x16.png" "" emptyBook eq_refl))).
Defined.

(** X3: a successful [AddSection] stores, under the file name, which was
    free before, the document made by [newXhtml] from the content with the
    title set, leaves every other section as it was, and makes the number
    of sections one more. *)
Theorem AddSection_stores (t b f : string) (e : Epub) :
  snd (fst (AddSection t b f e)) = None →
  sections e !! sectionFilenameFor f e = None
  ∧ sections (snd (AddSection t b f e)) !! sectionFilenameFor f e
    = Some (xhtml_setTitle t (newXhtml b))
  ∧ (∀ k, k ≠ sectionFilenameFor f e →
       sections (snd (AddSection t b f e)) !! k = sections e !! k)
  ∧ size (sections (snd (AddSection t b f e))) = size (sections e) + 1.
Proof.
  intros Hok%AddSection_ok. destruct (AddSection_free t b f e Hok) as [_ ->].
  split; [done |]. split; [apply lookup_insert_eq |]. split.
  - intros k Hk. by rewrite lookup_insert_ne.
  - rewrite map_size_insert_None by done. lia.
Qed.

Lemma AddSection_stores_witness :
  snd (fst (AddSection "Section 2" "<p/>" "second.xhtml" smallBook)) = None
  ∧ size (sections (snd (AddSection "Section 2" "<p/>" "second.xhtml"
                           smallBook)))
    = size (sections smallBook) + 1.
Proof.
  split; [reflexivity |].
  exact (proj2 (proj2 (proj2 (AddSection_stores
    "Section 2" "<p/>" "second.xhtml" smallBook eq_refl)))).
Defined.

(** X4: no sequence of calls removes or changes an image or a section
    that is there: both maps only grow. *)
Theorem added_entries_stay (cs : list call) (e : Epub) :
  images e ⊆ images (exec cs e) ∧ sections e ⊆ sections (exec cs e).
Proof. apply exec_maps_grow. Qed.

(** X5: once [AddImage] was called with a file name of the caller's,
    whether it succeeded or not, every later [AddImage] with that file
    name returns the error, whatever was called in between; the same for
    [AddSection]. *)
Theorem given_name_is_used_once
  (s1 s2 t1 b1 t2 b2 f : string) (cs : list call) (e : Epub) :
  f ≠ "" →
  fst (AddImage s2 f (exec cs (snd (AddImage s1 f e))))
  = ("", Some ErrFilenameAlreadyUsed)
  ∧ fst (AddSection t2 b2 f (exec cs (snd (AddSection t1 b1 f e))))
    = ("", Some ErrFilenameAlreadyUsed).
Proof.
  intros Hf.
  pose proof (AddImage_name_used s1 f e) as Hi.
  pose proof (AddSection_name_used t1 b1 f e) as Hs.
  unfold imageFilenameFor in Hi. unfold sectionFilenameFor in Hs.
  rewrite decide_False in Hi, Hs by done.
  destruct (exec_maps_grow cs (snd (AddImage s1 f e))) as [Hgi _].
  destruct (exec_maps_grow cs (snd (AddSection t1 b1 f e))) as [_ Hgs].
  split.
  - rewrite AddImage_used; [done |].
    unfold imageFilenameFor. rewrite decide_False by done.
    by eapply is_Some_weaken.
  - rewrite AddSection_used; [done |].
    unfold sectionFilenameFor. rewrite decide_False by done.
    by eapply is_Some_weaken.
Qed.

Lemma given_name_is_used_once_witness :
  "cover.jpg" ≠ ""
  ∧ fst (AddImage "other.jpg" "cover.jpg"
           (exec mixedCalls (snd (AddImage "b.jpg" "cover.jpg" emptyBook))))
    = ("", Some ErrFilenameAlreadyUsed).
Proof.
  assert ("cover.jpg" ≠ "") as H by discriminate.
  split; [exact H |].
  exact (proj1 (given_name_is_used_once "b.jpg" "other.jpg" "" "" "" ""
                  "cover.jpg" mixedCalls emptyBook H)).
Defined.

(** X6: a setter and an add call can be made in either order: the add
    call returns the same and the [Epub] after both is the same. *)
Theorem setter_commutes_with_add
  (fld : field) (v s t b f : string) (e : Epub) :
  fst (AddImage s f (setter fld v e)) = fst (AddImage s f e)
  ∧ snd (AddImage s f (setter fld v e)) = setter fld v (snd (AddImage s f e))
  ∧ fst (AddSection t b f (setter fld v e)) = fst (AddSection t b f e)
  ∧ snd (AddSection t b f (setter fld v e))
    = setter fld v (snd (AddSection t b f e)).
Proof.
  destruct fld; unfold AddImage, AddSection, imageFilenameFor,
    sectionFilenameFor; cbn [setter SetAuthor SetLang SetTitle SetUUID
                             images sections]; cbv zeta;
    destruct (images e !! _); destruct (sections e !! _); done.
Qed.

(** * Numbered keys *)

Section KeysNumbered.

Context {V : Type}.
Variable fmt : nat → string → string.
Hypothesis fmt_inj : ∀ j k s s', fmt j s = fmt k s' → j = k.

Lemma keys_numbered_empty : keys_numbered fmt (∅ : gmap string V).
Proof. intros k [v Hv]. by rewrite lookup_empty in Hv. Qed.

(** The next generated name is free. *)
Lemma keys_numbered_fresh (m : gmap string V) (s : string) :
  keys_numbered fmt m → m !! fmt (size m + 1) s = None.
Proof.
  intros Hm. destruct (m !! fmt (size m + 1) s) as [v|] eqn:E; [| done].
  pose proof (Hm _ (mk_is_Some _ _ E) (size m + 1) s eq_refl). lia.
Qed.

Lemma keys_numbered_insert_generated (m : gmap string V) (s : string) (v : V) :
  keys_numbered fmt m → keys_numbered fmt (<[fmt (size m + 1) s := v]> m).
Proof.
  intros Hm. pose proof (keys_numbered_fresh m s Hm) as Hfresh.
  intros k Hk j s' ->. rewrite map_size_insert_None by done.
  destruct (decide (fmt (size m + 1) s = fmt j s')) as [Heq | Hne].
  - apply fmt_inj in Heq. lia.
  - rewrite lookup_insert_ne in Hk by done.
    pose proof (Hm _ Hk j s' eq_refl). lia.
Qed.

(** A new key that is no generated name keeps the numbering. *)
Lemma keys_numbered_insert_own (m : gmap string V) (k : string) (v : V) :
  keys_numbered fmt m → m !! k = None → (∀ j s, k ≠ fmt j s) →
  keys_numbered fmt (<[k := v]> m).
Proof.
  intros Hm Hfree Hown k' Hk' j s ->.
  rewrite map_size_insert_None by done.
  destruct (decide (k = fmt j s)) as [Heq | Hne]; [by apply Hown in Heq |].
  rewrite lookup_insert_ne in Hk' by done.
  pose proof (Hm _ Hk' j s eq_refl). lia.
Qed.

End KeysNumbered.

Section OwnNames.

Lemma sectionName_inj (j k : nat) (s s' : string) :
  sectionName j s = sectionName k s' → j = k.
Proof.
  unfold sectionName, sectionFileFormat. intros H%append_inj_l.
  by apply digits_ext_unique in H as [H%sprintf_04d_inj _];
    auto using sprintf_04d_digits.
Qed.

Lemma prefix_app (p r : string) : String.prefix p (p +:+ r) = true.
Proof.
  induction p as [|c p IH]; [by destruct r |].
  rewrite append_cons. simpl. by destruct (ascii_dec c c).
Qed.

Lemma not_image_prefix (f : string) (j : nat) (s : string) :
  String.prefix imagePrefix f = false → f ≠ imageName j s.
Proof.
  intros Hf ->. unfold imageName, imageFileFormat in Hf.
  by rewrite prefix_app in Hf.
Qed.

Lemma not_section_prefix (f : string) (j : nat) (s : string) :
  String.prefix sectionPrefix f = false → f ≠ sectionName j s.
Proof.
  intros Hf ->. unfold sectionName, sectionFileFormat in Hf.
  by rewrite prefix_app in Hf.
Qed.

(** A call whose given image name does not begin with [image] keeps the
    image names numbered, and does not fail when it generates its name. *)
Lemma step_keeps_images_numbered (c : call) (e : Epub) :
  own_image_names [c] = true →
  keys_numbered imageName (images e) →
  keys_numbered imageName (images (snd (step c e)))
  ∧ ∀ s r, c = CallAddImage s "" → fst (step c e) = Some r →
           r = ("../" +:+ imageFolderName +:+ "/"
                +:+ imageName (size (images e) + 1) s, None).
Proof.
  intros Hown Hm. rewrite step_snd.
  destruct c as [s f | t b f | a | l | t | u]; try (split; [done |]; done).
  - simpl in Hown. rewrite andb_true_r in Hown.
    apply negb_true_iff in Hown.
    destruct (decide (f = "")) as [-> | Hf].
    + pose proof (keys_numbered_fresh imageName _ s Hm) as Hfresh.
      assert (imageFilenameFor s "" e = imageName (size (images e) + 1) s)
        as Hname by (unfold imageFilenameFor; by rewrite decide_True).
      rewrite <- Hname in Hfresh.
      destruct (AddImage_free s "" e Hfresh) as [Hret ->]. rewrite Hname.
      split; [by apply keys_numbered_insert_generated; [apply imageName_inj |] |].
      intros s' r [= <-]. rewrite step_fst_image, Hret, Hname.
      rewrite Join_clean_relative;
        [by intros [= <-] | done | done |].
      apply imageFileFormat_clean, Ext_is_ext.
    + split; [| by intros s' r [= _ Hf']].
      assert (imageFilenameFor s f e = f) as Hname
        by (unfold imageFilenameFor; by rewrite decide_False).
      destruct (AddImage_cases s f e) as [[_ ->] | (Hn & _ & ->)]; [done |].
      rewrite Hname in *. apply keys_numbered_insert_own; [done | done |].
      intros j s'. by apply not_image_prefix.
  - split; [| done].
    by destruct (AddSection_frame t b f e) as (_&_&_&_&_&_& ->).
Qed.

Lemma step_keeps_sections_numbered (c : call) (e : Epub) :
  own_section_names [c] = true →
  keys_numbered sectionName (sections e) →
  keys_numbered sectionName (sections (snd (step c e)))
  ∧ ∀ t b r, c = CallAddSection t b "" → fst (step c e) = Some r →
             r = (sectionFileFormat (size (sections e) + 1), None).
Proof.
  intros Hown Hm. rewrite step_snd.
  destruct c as [s f | t b f | a | l | t | u]; try (split; [done |]; done).
  - split; [| done].
    by destruct (AddImage_frame s f e) as (_&_&_&_&_&_& ->).
  - simpl in Hown. rewrite andb_true_r in Hown.
    apply negb_true_iff in Hown.
    destruct (decide (f = "")) as [-> | Hf].
    + pose proof (keys_numbered_fresh sectionName _ "" Hm) as Hfresh.
      assert (sectionFilenameFor "" e
              = sectionName (size (sections e) + 1) "")
        as Hname by (unfold sectionFilenameFor; by rewrite decide_True).
      rewrite <- Hname in Hfresh.
      destruct (AddSection_free t b "" e Hfresh) as [Hret ->]. rewrite Hname.
      split; [by apply keys_numbered_insert_generated; [apply sectionName_inj |] |].
      intros t' b' r [= <- <-]. rewrite step_fst_section, Hret, Hname.
      by intros [= <-].
    + split; [| by intros t' b' r [= _ _ Hf']].
      assert (sectionFilenameFor f e = f) as Hname
        by (unfold sectionFilenameFor; by rewrite decide_False).
      destruct (AddSection_cases t b f e) as [[_ ->] | (Hn & _ & ->)]; [done |].
      rewrite Hname in *. apply keys_numbered_insert_own; [done | done |].
      intros j s'. by apply not_section_prefix.
Qed.

End OwnNames.

(** * Runs of add calls *)

Section Runs.

Lemma own_image_names_cons (c : call) (cs : list call) :
  own_image_names (c :: cs) = own_image_names [c] && own_image_names cs.
Proof. unfold own_image_names. simpl. by rewrite andb_true_r. Qed.

Lemma own_section_names_cons (c : call) (cs : list call) :
  own_section_names (c :: cs) = own_section_names [c] && own_section_names cs.
Proof. unfold own_section_names. simpl. by rewrite andb_true_r. Qed.

Lemma run_images_numbered (cs : list call) (e : Epub) :
  keys_numbered imageName (images e) → own_image_names cs = true →
  ∀ s r, (CallAddImage s "", Some r) ∈ (run cs e).1 →
         ∃ n, r = ("../" +:+ imageFolderName +:+ "/" +:+ imageName n s, None).
Proof.
  revert e. induction cs as [|c cs IH]; intros e Hm Hown s r Hin.
  - by apply elem_of_nil in Hin.
  - rewrite own_image_names_cons in Hown. apply andb_prop in Hown as [Hc Hcs].
    destruct (step_keeps_images_numbered c e Hc Hm) as [Hm' Hret].
    rewrite run_cons in Hin. cbn [fst] in Hin.
    apply elem_of_cons in Hin as [[= <- Hr] | Hin].
    + eexists. by apply (Hret s r).
    + by apply (IH _ Hm' Hcs).
Qed.

Lemma run_sections_numbered (cs : list call) (e : Epub) :
  keys_numbered sectionName (sections e) → own_section_names cs = true →
  ∀ t b r, (CallAddSection t b "", Some r) ∈ (run cs e).1 →
           ∃ n, r = (sectionFileFormat n, None).
Proof.
  revert e. induction cs as [|c cs IH]; intros e Hm Hown t b r Hin.
  - by apply elem_of_nil in Hin.
  - rewrite own_section_names_cons in Hown.
    apply andb_prop in Hown as [Hc Hcs].
    destruct (step_keeps_sections_numbered c e Hc Hm) as [Hm' Hret].
    rewrite run_cons in Hin. cbn [fst] in Hin.
    apply elem_of_cons in Hin as [[= <- Hr] | Hin].
    + eexists. by apply (Hret t b r).
    + by apply (IH _ Hm' Hcs t b).
Qed.

Lemma step_sizes (c : call) (e : Epub) :
  size (images (snd (step c e)))
  = size (images e) + successes (image_returns [(c, fst (step c e))])
  ∧ size (sections (snd (step c e)))
    = size (sections e) + successes (section_returns [(c, fst (step c e))]).
Proof.
  rewrite step_snd.
  destruct c as [s f | t b f | a | l | t | u];
    try (simpl; split; lia).
  - rewrite step_fst_image.
    destruct (AddImage_frame s f e) as (_&_&_&_&_&_& ->).
    split; [| simpl; lia].
    destruct (AddImage_cases s f e) as [[_ ->] | (Hn & -> & ->)].
    + simpl. lia.
    + rewrite map_size_insert_None by done. simpl. lia.
  - rewrite step_fst_section.
    destruct (AddSection_frame t b f e) as (_&_&_&_&_&_& ->).
    split; [simpl; lia |].
    destruct (AddSection_cases t b f e) as [[_ ->] | (Hn & -> & ->)].
    + simpl. lia.
    + rewrite map_size_insert_None by done. simpl. lia.
Qed.

Lemma image_returns_cons (cr : call * returned) (rs : list (call * returned)) :
  successes (image_returns (cr :: rs))
  = successes (image_returns [cr]) + successes (image_returns rs).
Proof. destruct cr as [[] [[? []]|]]; simpl; lia. Qed.

Lemma section_returns_cons (cr : call * returned) (rs : list (call * returned)) :
  successes (section_returns (cr :: rs))
  = successes (section_returns [cr]) + successes (section_returns rs).
Proof. destruct cr as [[] [[? []]|]]; simpl; lia. Qed.

End Runs.

(** X7: in a run on an [Epub] without images where no file name given to
    [AddImage] begins with [image], no [AddImage] call that generates its
    name fails: it returns [../img/] followed by a generated name with the
    extension of its source. *)
Theorem generated_image_name_never_taken (cs : list call) (e : Epub) :
  images e = ∅ → own_image_names cs = true →
  ∀ s r, (CallAddImage s "", Some r) ∈ (run cs e).1 →
         snd r = None
         ∧ ∃ n, fst r = "../" +:+ imageFolderName +:+ "/" +:+ imagePrefix
                        +:+ sprintf_04d n +:+ filepath.Ext s.
Proof.
  intros He Hown s r Hin.
  assert (keys_numbered imageName (images e)) as Hm
    by (rewrite He; apply keys_numbered_empty).
  destruct (run_images_numbered cs e Hm Hown s r Hin) as [n ->].
  split; [done |]. by exists n.
Qed.

Lemma generated_image_name_never_taken_witness :
  images emptyBook = ∅ ∧ own_image_names mixedCalls = true
  ∧ (CallAddImage "e.svg" "", Some ("../img/image0004.svg", None))
    ∈ (run mixedCalls emptyBook).1
  ∧ snd ("../img/image0004.svg", @None error) = None.
Proof.
  assert ((CallAddImage "e.svg" "", Some ("../img/image0004.svg", None))
          ∈ (run mixedCalls emptyBook).1) as Hin.
  { apply list_elem_of_In. vm_compute. do 8 right. left. reflexivity. }
  split; [reflexivity |]. split; [reflexivity |]. split; [exact Hin |].
  exact (proj1 (generated_image_name_never_taken mixedCalls emptyBook
                  eq_refl eq_refl _ _ Hin)).
Defined.

(** X8: in a run on an [Epub] without sections where no file name given
    to [AddSection] begins with [section], no [AddSection] call that
    generates its name fails: it returns a generated name. *)
Theorem generated_section_name_never_taken (cs : list call) (e : Epub) :
  sections e = ∅ → own_section_names cs = true →
  ∀ t b r, (CallAddSection t b "", Some r) ∈ (run cs e).1 →
           snd r = None
           ∧ ∃ n, fst r = sectionPrefix +:+ sprintf_04d n +:+ sectionSuffix.
Proof.
  intros He Hown t b r Hin.
  assert (keys_numbered sectionName (sections e)) as Hm
    by (rewrite He; apply keys_numbered_empty).
  destruct (run_sections_numbered cs e Hm Hown t b r Hin) as [n ->].
  split; [done |]. by exists n.
Qed.

Lemma generated_section_name_never_taken_witness :
  sections emptyBook = ∅ ∧ own_section_names mixedCalls = true
  ∧ (CallAddSection "Three" "<p>3</p>" "", Some ("section0003.xhtml", None))
    ∈ (run mixedCalls emptyBook).1
  ∧ snd ("section0003.xhtml", @None error) = None.
Proof.
  assert ((CallAddSection "Three" "<p>3</p>" "",
           Some ("section0003.xhtml", None))
          ∈ (run mixedCalls emptyBook).1) as Hin.
  { apply list_elem_of_In. vm_compute. do 7 right. left. reflexivity. }
  split; [reflexivity |]. split; [reflexivity |]. split; [exact Hin |].
  exact (proj1 (generated_section_name_never_taken mixedCalls emptyBook
                  eq_refl eq_refl _ _ _ Hin)).
Defined.

(** X9: after any run the number of images is the number before plus the
    number of [AddImage] calls of the run that returned no error, and the
    same for sections: the count behind the generated names is the count
    of successful calls. *)
Theorem size_counts_successful_adds (cs : list call) (e : Epub) :
  size (images (exec cs e))
  = size (images e) + successes (image_returns (run cs e).1)
  ∧ size (sections (exec cs e))
    = size (sections e) + successes (section_returns (run cs e).1).
Proof.
  revert e. induction cs as [|c cs IH]; intros e.
  - rewrite exec_nil. simpl. lia.
  - rewrite exec_cons, run_cons. cbn [fst].
    rewrite image_returns_cons, section_returns_cons.
    destruct (IH (snd (step c e))) as [-> ->].
    destruct (step_sizes c e) as [-> ->]. lia.
Qed.

Section GivenNames.

Lemma run_image_calls_cons (p : string * string) (ps : list (string * string))
  (e : Epub) :
  image_returns (run (image_call <$> p :: ps) e).1
  = fst (AddImage p.1 p.2 e)
    :: image_returns (run (image_call <$> ps) (snd (AddImage p.1 p.2 e))).1
  ∧ exec (image_call <$> p :: ps) e
    = exec (image_call <$> ps) (snd (AddImage p.1 p.2 e)).
Proof.
  cbn [fmap list_fmap]. rewrite run_cons, exec_cons.
  change (image_call p) with (CallAddImage p.1 p.2).
  rewrite step_fst_image, step_snd. done.
Qed.

End GivenNames.

(** X10: [AddImage] calls with pairwise distinct file names of the
    caller's, none of them a key yet, all succeed: each returns the join
    of [..], [img] and its file name, and afterwards every file name maps
    to its source. *)
Theorem distinct_given_names_succeed
  (ps : list (string * string)) (e : Epub) :
  NoDup ps.*2 → "" ∉ ps.*2 → (∀ f, f ∈ ps.*2 → images e !! f = None) →
  image_returns (run (image_call <$> ps) e).1
  = (λ p, (filepath.Join [".."; imageFolderName; p.2], None)) <$> ps
  ∧ ∀ s f, (s, f) ∈ ps → images (exec (image_call <$> ps) e) !! f = Some s.
Proof.
  revert e. induction ps as [|[s0 f0] ps IH]; intros e Hnd Hne Hfree.
  - split; [done |]. intros s f Hin. by apply elem_of_nil in Hin.
  - cbn [fmap list_fmap snd] in Hnd, Hne, Hfree.
    apply NoDup_cons in Hnd as [Hf0 Hnd].
    apply not_elem_of_cons in Hne as [Hf0e Hne].
    assert (imageFilenameFor s0 f0 e = f0) as Hname
      by (unfold imageFilenameFor; by rewrite decide_False).
    assert (images e !! imageFilenameFor s0 f0 e = None) as Hn
      by (rewrite Hname; apply Hfree; left).
    destruct (AddImage_free s0 f0 e Hn) as [Hret Himg].
    rewrite Hname in Hret, Himg.
    destruct (run_image_calls_cons (s0, f0) ps e) as [-> ->]. cbn [fst snd].
    destruct (IH (snd (AddImage s0 f0 e)) Hnd Hne) as [IH1 IH2].
    { intros f Hf. rewrite Himg, lookup_insert_ne by (by intros ->).
      apply Hfree. by right. }
    rewrite Hret, IH1. split; [done |].
    intros s f [[= -> ->] | Hin]%elem_of_cons; [| by apply IH2].
    destruct (exec_maps_grow (image_call <$> ps) (snd (AddImage s0 f0 e)))
      as [Hgrow _].
    eapply lookup_weaken; [| exact Hgrow].
    rewrite Himg. apply lookup_insert_eq.
Qed.

Lemma distinct_given_names_succeed_witness :
  NoDup (twoImages.*2) ∧ ("" ∉ twoImages.*2)
  ∧ (∀ f, f ∈ twoImages.*2 → images emptyBook !! f = None)
  ∧ image_returns (run (image_call <$> twoImages) emptyBook).1
    = [("../img/one.png", None); ("../img/two.png", None)].
Proof.
  assert (NoDup (twoImages.*2)) as H1
    by (apply (bool_decide_unpack _); vm_compute; exact I).
  assert ("" ∉ twoImages.*2) as H2
    by (apply (bool_decide_unpack _); vm_compute; exact I).
  assert (∀ f, f ∈ twoImages.*2 → images emptyBook !! f = None) as H3
    by (intros f _; apply lookup_empty).
  split; [exact H1 |]. split; [exact H2 |]. split; [exact H3 |].
  exact (proj1 (distinct_given_names_succeed twoImages emptyBook H1 H2 H3)).
Defined.

Section GeneratedSections.

Lemma sectionFileFormat_inj : Inj (=) (=) sectionFileFormat.
Proof. intros j k H. by apply (sectionName_inj j k "" ""). Qed.

(** A run whose [AddSection] calls all generate their name. *)
Lemma run_generated_sections (cs : list call) (e : Epub) :
  keys_numbered sectionName (sections e) →
  generated_sections_only cs = true →
  section_returns (run cs e).1
  = (λ n, (sectionFileFormat n, None))
      <$> seq (size (sections e) + 1) (length (List.filter is_section_call cs)).
Proof.
  revert e. induction cs as [|c cs IH]; intros e Hm Hcs; [done |].
  simpl in Hcs. apply andb_prop in Hcs as [Hc Hcs].
  rewrite run_cons. cbn [fst].
  assert (own_section_names [c] = true) as Hown.
  { destruct c; try done. apply String.eqb_eq in Hc as ->. done. }
  destruct (step_keeps_sections_numbered c e Hown Hm) as [Hm' Hret].
  destruct (step_sizes c e) as [_ Hsize].
  specialize (IH _ Hm' Hcs). rewrite Hsize in IH.
  destruct c as [s f | t b f | a | l | t | u];
    try (simpl in IH |- *; by rewrite Nat.add_0_r in IH).
  apply String.eqb_eq in Hc as ->.
  rewrite step_fst_section in IH, Hret |- *.
  rewrite (Hret t b _ eq_refl eq_refl) in IH |- *.
  cbn [section_returns successes List.filter is_section_call length seq
       fmap list_fmap] in IH |- *.
  rewrite IH. do 3 f_equal. lia.
Qed.

End GeneratedSections.

(** X11: in a run on an [Epub] without sections whose [AddSection] calls
    all leave the file name empty, every such call succeeds, the call
    number [i + 1] returns [section], the number written by [%04d] and
    [.xhtml], and the names returned are pairwise distinct. *)
Theorem generated_section_names (cs : list call) (e : Epub) :
  sections e = ∅ → generated_sections_only cs = true →
  let rets := section_returns (run cs e).1 in
  length rets = length (List.filter is_section_call cs)
  ∧ (∀ i, i < length (List.filter is_section_call cs) →
       rets !! i
       = Some (sectionPrefix +:+ sprintf_04d (i + 1) +:+ sectionSuffix, None))
  ∧ NoDup rets.*1.
Proof.
  intros He Hcs rets.
  assert (keys_numbered sectionName (sections e)) as Hm
    by (rewrite He; apply keys_numbered_empty).
  pose proof (run_generated_sections cs e Hm Hcs) as Hrets.
  fold rets in Hrets. rewrite He, map_size_empty in Hrets.
  split; [| split].
  - by rewrite Hrets, length_fmap, length_seq.
  - intros i Hi. rewrite Hrets, list_lookup_fmap, lookup_seq_lt by done.
    replace (0 + 1 + i) with (i + 1) by lia. reflexivity.
  - rewrite Hrets, <- list_fmap_compose.
    apply NoDup_fmap_2_strong; [| apply NoDup_seq].
    intros j k _ _. apply sectionFileFormat_inj.
Qed.

Lemma generated_section_names_witness :
  sections emptyBook = ∅
  ∧ generated_sections_only
      [CallAddSection "One" "<p>1</p>" ""; CallAddImage "a.png" "x.xhtml";
       CallAddSection "Two" "<p>2</p>" ""] = true
  ∧ section_returns
      (run [CallAddSection "One" "<p>1</p>" ""; CallAddImage "a.png" "x.xhtml";
            CallAddSection "Two" "<p>2</p>" ""] emptyBook).1 !! 1
    = Some ("section0002.xhtml", None).
Proof.
  split; [reflexivity |]. split; [reflexivity |].
  destruct (generated_section_names
              [CallAddSection "One" "<p>1</p>" "";
               CallAddImage "a.png" "x.xhtml";
               CallAddSection "Two" "<p>2</p>" ""] emptyBook eq_refl eq_refl)
    as (_ & Hnth & _).
  apply (Hnth 1). vm_compute. lia.
Defined.

Section Extensions.

Import filepath.

Lemma all_digits_no_dot (s : string) :
  Str.all_digits s = true → Str.contains "." s = false.
Proof.
  induction s as [|c s IH]; simpl; [done |].
  intros [Hc Hs]%andb_prop.
  destruct (Ascii.eqb_spec c ".") as [-> | _]; [discriminate Hc | auto].
Qed.

(** Bytes that are neither dots nor separators leave the scan of [Ext]
    where it is. *)
Lemma ext_from_app_plain (a x cand : string) :
  Str.contains "." a = false → Str.contains "/" a = false →
  ext_from cand (a +:+ x) = ext_from cand x.
Proof.
  induction a as [|c a IH]; [done |]. intros Hd Hs.
  rewrite IsPathSeparator_contains in Hs.
  apply orb_false_elim in Hs as [Hc Hs]. simpl in Hd.
  rewrite append_cons. simpl. rewrite Hc.
  destruct (Ascii.eqb_spec c ".") as [-> | _]; [discriminate Hd |].
  by apply IH.
Qed.

Lemma ext_from_plain (t cand : string) :
  Str.contains "." t = false → Str.contains "/" t = false →
  ext_from cand t = cand.
Proof.
  intros Hd Hs. rewrite <- (append_nil_r t).
  by rewrite ext_from_app_plain.
Qed.

Lemma ext_from_dot_cases (path cand : string) :
  (ext_from cand path = cand
   ∧ Str.contains "." path = false ∧ Str.contains "/" path = false)
  ∨ is_dot_ext (ext_from cand path) = true.
Proof.
  revert cand. induction path as [|c r IH]; intros cand; [by left |].
  rewrite IsPathSeparator_contains. simpl.
  destruct (IsPathSeparator c) eqn:Hsep.
  - right. destruct (IH "") as [[-> _] | H]; done.
  - destruct (Ascii.eqb_spec c ".") as [-> | Hdot].
    + right. destruct (IH (String "." r)) as [(-> & Hd & Hs) | H]; [| done].
      simpl. by rewrite Hd, Hs.
    + destruct (IH cand) as [(-> & Hd & Hs) | H]; [left | by right].
      by rewrite Hd, Hs.
Qed.

Lemma Ext_dot_ext (path : string) : is_dot_ext (Ext path) = true.
Proof.
  unfold Ext. by destruct (ext_from_dot_cases path "") as [[-> _] | H].
Qed.

(** A single-dot extension is its own extension. *)
Lemma Ext_of_dot_ext (x : string) : is_dot_ext x = true → Ext x = x.
Proof.
  destruct x as [|c r]; [done |]. simpl.
  intros [[Hc Hd]%andb_prop Hs]%andb_prop.
  apply Ascii.eqb_eq in Hc as ->. apply negb_true_iff in Hd, Hs.
  unfold Ext. simpl. by apply ext_from_plain.
Qed.

End Extensions.

(** X12: the file name [AddImage] generates has the extension of the
    image source: [filepath.Ext] of the name is [filepath.Ext] of the
    source, which is its own extension. *)
Theorem generated_image_name_keeps_extension (s : string) (e : Epub) :
  filepath.Ext (imageFilenameFor s "" e) = filepath.Ext s
  ∧ filepath.Ext (filepath.Ext s) = filepath.Ext s.
Proof.
  pose proof (Ext_of_dot_ext _ (Ext_dot_ext s)) as Hfix.
  split; [| exact Hfix].
  unfold imageFilenameFor. rewrite decide_True by done.
  unfold imageFileFormat, filepath.Ext at 1.
  rewrite ext_from_app_plain by done.
  rewrite ext_from_app_plain; [exact Hfix | |].
  - apply all_digits_no_dot, sprintf_04d_digits.
  - apply all_digits_no_sep, sprintf_04d_digits.
Qed.

Section Kinds.

Lemma run_sections_alone (cs : list call) (e1 e2 : Epub) :
  sections e1 = sections e2 →
  section_returns (run cs e1).1
  = section_returns (run (List.filter is_section_call cs) e2).1.
Proof.
  revert e1 e2. induction cs as [|c cs IH]; intros e1 e2 H; [done |].
  rewrite run_cons. cbn [fst].
  destruct c as [s f | t b f | a | l | t | u]; cbn [List.filter is_section_call];
    try (apply (IH _ e2); exact H).
  - rewrite step_fst_image. cbn [section_returns]. apply IH.
    rewrite step_snd.
    by destruct (AddImage_frame s f e1) as (_&_&_&_&_&_& ->).
  - rewrite run_cons. cbn [fst].
    rewrite !step_fst_section, !step_snd. cbn [section_returns].
    destruct (AddSection_depends_on_sections t b f e1 e2 H) as [-> Hs].
    f_equal. by apply IH.
Qed.

Lemma run_images_alone (cs : list call) (e1 e2 : Epub) :
  images e1 = images e2 →
  image_returns (run cs e1).1
  = image_returns (run (List.filter is_image_call cs) e2).1.
Proof.
  revert e1 e2. induction cs as [|c cs IH]; intros e1 e2 H; [done |].
  rewrite run_cons. cbn [fst].
  destruct c as [s f | t b f | a | l | t | u]; cbn [List.filter is_image_call];
    try (apply (IH _ e2); exact H).
  - rewrite run_cons. cbn [fst].
    rewrite !step_fst_image, !step_snd. cbn [image_returns].
    destruct (AddImage_depends_on_images s f e1 e2 H) as [-> Hs].
    f_equal. by apply IH.
  - rewrite step_fst_section. cbn [image_returns]. apply IH.
    rewrite step_snd.
    by destruct (AddSection_frame t b f e1) as (_&_&_&_&_&_& ->).
Qed.

End Kinds.

(** X13: images and sections are separate name spaces: what the
    [AddSection] calls of a run return is what they return when called
    alone, on any [Epub] with the same sections, and likewise for the
    [AddImage] calls; the calls of the other kind and the setters do not
    matter. *)
Theorem kinds_do_not_interfere (cs : list call) (e1 e2 : Epub) :
  (sections e1 = sections e2 →
   section_returns (run cs e1).1
   = section_returns (run (List.filter is_section_call cs) e2).1)
  ∧ (images e1 = images e2 →
     image_returns (run cs e1).1
     = image_returns (run (List.filter is_image_call cs) e2).1).
Proof. split; [apply run_sections_alone | apply run_images_alone]. Qed.

Lemma kinds_do_not_interfere_witness :
  sections smallBook = sections (exec [CallAddImage "x.png" "section0003.xhtml";
                                       CallSetTitle "T"] smallBook)
  ∧ images emptyBook = images (SetLang "fr" emptyBook)
  ∧ section_returns (run mixedCalls smallBook).1
    = section_returns
        (run (List.filter is_section_call mixedCalls)
           (exec [CallAddImage "x.png" "section0003.xhtml";
                  CallSetTitle "T"] smallBook)).1
  ∧ image_returns (run mixedCalls emptyBook).1
    = image_returns (run (List.filter is_image_call mixedCalls)
                       (SetLang "fr" emptyBook)).1.
Proof.
  assert (sections smallBook
          = sections (exec [CallAddImage "x.png" "section0003.xhtml";
                            CallSetTitle "T"] smallBook)) as H1
    by reflexivity.
  assert (images emptyBook = images (SetLang "fr" emptyBook)) as H2
    by reflexivity.
  split; [exact H1 |]. split; [exact H2 |]. split.
  - exact (proj1 (kinds_do_not_interfere mixedCalls smallBook _) H1).
  - exact (proj2 (kinds_do_not_interfere mixedCalls emptyBook _) H2).
Defined.

(** X14: two successful [AddImage] calls on one [Epub], whatever is
    called in between, return different references when both file names
    are clean. *)
Theorem clean_names_get_distinct_references
  (s1 f1 s2 f2 : string) (cs : list call) (e : Epub) :
  let e1 := exec cs (snd (AddImage s1 f1 e)) in
  snd (fst (AddImage s1 f1 e)) = None →
  snd (fst (AddImage s2 f2 e1)) = None →
  clean_relative (imageFilenameFor s1 f1 e) = true →
  clean_relative (imageFilenameFor s2 f2 e1) = true →
  fst (fst (AddImage s1 f1 e)) ≠ fst (fst (AddImage s2 f2 e1)).
Proof.
  intros e1 Hok1%AddImage_ok Hok2%AddImage_ok Hc1 Hc2.
  pose proof (AddImage_name_used s1 f1 e) as Hused.
  destruct (exec_maps_grow cs (snd (AddImage s1 f1 e))) as [Hgrow _].
  apply (is_Some_weaken _ _ _ Hgrow) in Hused. fold e1 in Hused.
  destruct (AddImage_free s1 f1 e Hok1) as [-> _].
  destruct (AddImage_free s2 f2 e1 Hok2) as [-> _]. cbn [fst].
  rewrite !Join_clean_relative by done.
  intros Heq. do 3 apply append_inj_l in Heq.
  rewrite Heq, Hok2 in Hused. by destruct Hused.
Qed.

Lemma clean_names_get_distinct_references_witness :
  snd (fst (AddImage "a.png" "" emptyBook)) = None
  ∧ snd (fst (AddImage "b.png" "pics/b.png"
                (exec mixedCalls (snd (AddImage "a.png" "" emptyBook)))))
    = None
  ∧ clean_relative (imageFilenameFor "a.png" "" emptyBook) = true
  ∧ clean_relative
      (imageFilenameFor "b.png" "pics/b.png"
         (exec mixedCalls (snd (AddImage "a.png" "" emptyBook)))) = true
  ∧ fst (fst (AddImage "a.png" "" emptyBook))
    ≠ fst (fst (AddImage "b.png" "pics/b.png"
                  (exec mixedCalls (snd (AddImage "a.png" "" emptyBook))))).
Proof.
  assert (snd (fst (AddImage "b.png" "pics/b.png"
                      (exec mixedCalls (snd (AddImage "a.png" "" emptyBook)))))
          = None) as H2 by (vm_compute; reflexivity).
  assert (clean_relative
            (imageFilenameFor "b.png" "pics/b.png"
               (exec mixedCalls (snd (AddImage "a.png" "" emptyBook)))) = true)
    as H4 by (vm_compute; reflexivity).
  split; [reflexivity |]. split; [exact H2 |]. split; [reflexivity |].
  split; [exact H4 |].
  exact (clean_names_get_distinct_references "a.png" "" "b.png" "pics/b.png"
           mixedCalls emptyBook eq_refl H2 eq_refl H4).
Defined.

(** X15: a metadata field changes only through its own setter: after any
    sequence of calls without that setter, [AddImage] and [AddSection]
    included, its getter returns what it returned before. *)
Theorem metadata_changes_only_by_its_setter
  (fld : field) (cs : list call) (e : Epub) :
  without (sets fld) cs = true → getter fld (exec cs e) = getter fld e.
Proof. apply exec_keeps. Qed.

Lemma metadata_changes_only_by_its_setter_witness :
  without (sets FLang) mixedCalls = true
  ∧ Lang (exec mixedCalls emptyBook) = "en".
Proof.
  split; [reflexivity |].
  exact (metadata_changes_only_by_its_setter FLang mixedCalls emptyBook eq_refl).
Defined.

(** X16: the add calls check nothing but the file name.  What
    [AddSection] returns, and which names are sections afterwards, does
    not depend on the title or the content; what [AddImage] returns, and
    which names are images afterwards, depends on the source through its
    extension only. *)
Theorem add_checks_only_the_name
  (s s' t b t' b' f : string) (e : Epub) :
  (fst (AddSection t b f e) = fst (AddSection t' b' f e)
   ∧ dom (sections (snd (AddSection t b f e)))
     = dom (sections (snd (AddSection t' b' f e))))
  ∧ (filepath.Ext s = filepath.Ext s' →
     fst (AddImage s f e) = fst (AddImage s' f e)
     ∧ dom (images (snd (AddImage s f e)))
       = dom (images (snd (AddImage s' f e)))).
Proof.
  split.
  - unfold AddSection. cbv zeta.
    destruct (sections e !! sectionFilenameFor f e); [done |].
    cbn [fst snd sections]. by rewrite !dom_insert_L.
  - intros Hext. unfold AddImage, imageFilenameFor. rewrite Hext. cbv zeta.
    destruct (images e !! _); [done |].
    cbn [fst snd images]. by rewrite !dom_insert_L.
Qed.

Lemma add_checks_only_the_name_witness :
  filepath.Ext "testdata/gopher.png" = filepath.Ext "https://golang.org/g.png"
  ∧ fst (AddImage "testdata/gopher.png" "" smallBook)
    = fst (AddImage "https://golang.org/g.png" "" smallBook).
Proof.
  split; [reflexivity |].
  exact (proj1 (proj2 (add_checks_only_the_name
    "testdata/gopher.png" "https://golang.org/g.png" "" "" "" "" "" smallBook)
    eq_refl)).
Defined.
